(** * Norwegian company ranking and domain discovery: a shallow embedding

    The development follows [src/company_analyzer.py] (class
    [CompanyAnalyzer]) and [src/domain_finder.py] (class [DomainFinder]).

    Python objects live in a heap of dictionaries; a company record is a
    reference into that heap, so that copying, aliasing and in-place
    updates are visible.  Exceptions are modelled by an explicit result
    type, and every method is a computation in a small heap-and-exception
    monad. *)

From Stdlib Require Import ZArith String Ascii List Permutation Sorted Lia.
From stdpp Require Import base option gmap strings list sorting.

Local Open Scope string_scope.
Local Open Scope Z_scope.

(** ** Python values, exceptions and the heap *)

Definition loc := positive.

(** The values a registry record can hold after JSON decoding: [None],
    integers, strings and (references to) nested dictionaries. *)
Inductive value : Type :=
  | VNone
  | VInt (z : Z)
  | VStr (s : string)
  | VRef (l : loc).

(** Exception classes; a constructor stands for the class and its
    subclasses. *)
Inductive exn : Type :=
  | TypeError
  | AttributeError
  | UnicodeError
  | gaierror            (* socket.gaierror *)
  | socket_timeout      (* socket.timeout *)
  | RequestException    (* requests.RequestException *)
  | KeyboardInterrupt
  | InvalidRef.   (* a reference that denotes no object: not a Python state *)

Inductive result (A : Type) : Type :=
  | Ok (a : A)
  | Raise (e : exn).
Arguments Ok {A} a.
Arguments Raise {A} e.

#[export] Instance result_ret : MRet result := λ A a, Ok a.
#[export] Instance result_bind : MBind result := λ A B f r,
  match r with
  | Ok a => f a
  | Raise e => Raise e
  end.

(** [try: body / except (classes): handler], the classes given as a
    predicate. *)
Definition try_except {A} (body : result A) (classes : exn → bool)
    (handler : result A) : result A :=
  match body with
  | Ok a => Ok a
  | Raise e => if classes e then handler else Raise e
  end.

(** A bare [except:] catches every exception. *)
Definition any_exception (e : exn) : bool := true.

Abbreviation dict := (gmap string value).
Abbreviation heap := (gmap loc (gmap string value)).

(** Computations read and write the heap and may raise. *)
Definition M (A : Type) : Type := heap → result A * heap.

#[export] Instance M_ret : MRet M := λ A a σ, (Ok a, σ).
#[export] Instance M_bind : MBind M := λ A B f m σ,
  match m σ with
  | (Ok a, σ') => f a σ'
  | (Raise e, σ') => (Raise e, σ')
  end.

Definition raise {A} (e : exn) : M A := λ σ, (Raise e, σ).

Definition lift {A} (r : result A) : M A := λ σ, (r, σ).

(** [d.get(k, dflt)] on the dictionary object at [l]. *)
Definition dict_get (l : loc) (k : string) (dflt : value) : M value := λ σ,
  match σ !! l with
  | Some d => (Ok (default dflt (d !! k)), σ)
  | None => (Raise InvalidRef, σ)
  end.

(** [d.copy()]: a new dictionary object with the same items (shallow). *)
Definition dict_copy (l : loc) : M loc := λ σ,
  match σ !! l with
  | Some d => let l' := fresh (dom σ) in (Ok l', <[l' := d]> σ)
  | None => (Raise InvalidRef, σ)
  end.

(** [d[k] = v] on the dictionary object at [l]. *)
Definition dict_setitem (l : loc) (k : string) (v : value) : M unit := λ σ,
  match σ !! l with
  | Some d => (Ok tt, <[l := <[k := v]> d]> σ)
  | None => (Raise InvalidRef, σ)
  end.

(** ** Python operators on values *)

Definition is_none (v : value) : bool :=
  match v with VNone => true | _ => false end.

(** [v == n] for an integer literal [n]; [==] never raises. *)
Definition py_eq_int (v : value) (n : Z) : bool :=
  match v with VInt z => z =? n | _ => false end.

(** [v <= n] for an integer [n]. *)
Definition py_le_int (v : value) (n : Z) : result bool :=
  match v with VInt z => Ok (z <=? n) | _ => Raise TypeError end.

(** [v >= n] for an integer [n]. *)
Definition py_ge_int (v : value) (n : Z) : result bool :=
  match v with VInt z => Ok (z >=? n) | _ => Raise TypeError end.

Fixpoint string_repeat (s : string) (n : nat) : string :=
  match n with O => "" | S n' => String.append s (string_repeat s n') end.

(** [v * n] for an integer [n]: product of integers, repetition of strings. *)
Definition py_mul_int (v : value) (n : Z) : result value :=
  match v with
  | VInt z => Ok (VInt (z * n))
  | VStr s => Ok (VStr (string_repeat s (Z.to_nat n)))
  | _ => Raise TypeError
  end.

(** [a < b], the only comparison [list.sort] uses. *)
Definition py_lt (a b : value) : result bool :=
  match a, b with
  | VInt x, VInt y => Ok (x <? y)
  | VStr s, VStr t => Ok (String.ltb s t)
  | _, _ => Raise TypeError
  end.

(** The item of key [k], if any, of the dictionary object at [l]. *)
Definition dict_lookup (l : loc) (k : string) : M (option value) := λ σ,
  match σ !! l with
  | Some d => (Ok (d !! k), σ)
  | None => (Raise InvalidRef, σ)
  end.

(** [v.get(k, dflt)]: only dictionaries have the method. *)
Definition value_get (v : value) (k : string) (dflt : value) : M value :=
  match v with
  | VRef l => dict_get l k dflt
  | _ => raise AttributeError
  end.

(** [not v]: the truth value of [v], negated. *)
Definition py_not (v : value) : M bool :=
  match v with
  | VNone => mret true
  | VInt z => mret (z =? 0)
  | VStr s => mret (bool_decide (s = ""))
  | VRef l => λ σ,
      match σ !! l with
      | Some d => (Ok (bool_decide (d = ∅)), σ)
      | None => (Raise InvalidRef, σ)
      end
  end.

(** [len(v)]. *)
Definition py_len (v : value) : M Z :=
  match v with
  | VStr s => mret (Z.of_nat (String.length s))
  | VRef l => λ σ,
      match σ !! l with
      | Some d => (Ok (Z.of_nat (size d)), σ)
      | None => (Raise InvalidRef, σ)
      end
  | _ => raise TypeError
  end.

(** [v[:n]]: a prefix of a string; a dictionary rejects the slice as a key
    (a [TypeError] up to CPython 3.11). *)
Definition py_slice_to (v : value) (n : nat) : M string :=
  match v with
  | VStr s => mret (String.substring 0 n s)
  | _ => raise TypeError
  end.

(** ** [sorted(xs, key=..., reverse=...)]

    [list.sort] computes the keys of all items first, reverses the list
    when [reverse] is set, sorts it stably in ascending order using [<] on
    the keys only, and reverses the outcome again.  The ascending sort is
    modelled by stable insertion: each item in turn goes to the right of
    every item already placed that it is not smaller than. *)

Fixpoint insert_by_lt {A} (x : value * A) (ys : list (value * A))
    : result (list (value * A)) :=
  match ys with
  | [] => Ok [x]
  | y :: ys' =>
      match py_lt (fst x) (fst y) with
      | Raise e => Raise e
      | Ok true => Ok (x :: y :: ys')
      | Ok false =>
          match insert_by_lt x ys' with
          | Ok r => Ok (y :: r)
          | Raise e => Raise e
          end
      end
  end.

Fixpoint sort_ascending {A} (placed todo : list (value * A))
    : result (list (value * A)) :=
  match todo with
  | [] => Ok placed
  | x :: rest =>
      match insert_by_lt x placed with
      | Ok placed' => sort_ascending placed' rest
      | Raise e => Raise e
      end
  end.

Fixpoint map_keys {A} (key : A → M value) (xs : list A) : M (list (value * A)) :=
  match xs with
  | [] => mret []
  | x :: rest =>
      k ← key x;
      krest ← map_keys key rest;
      mret ((k, x) :: krest)
  end.

Definition sorted {A} (xs : list A) (key : A → M value) (reverse : bool)
    : M (list A) :=
  keyed ← map_keys key xs;
  out ← lift (sort_ascending [] (if reverse then rev keyed else keyed));
  mret (map snd (if reverse then rev out else out)).

(** ** CompanyAnalyzer *)

Module CompanyAnalyzer.

Definition _estimate_revenue (company : loc) : M value :=
  employees ← dict_get company "antallAnsatte" VNone;
  if is_none employees then mret VNone
  else if py_eq_int employees 0 then mret (VInt 1000000)
  else
    b ← lift (py_le_int employees 10);
    if b : bool then lift (py_mul_int employees 2000000)
    else
      b ← lift (py_le_int employees 50);
      if b : bool then lift (py_mul_int employees 1500000)
      else
        b ← lift (py_le_int employees 250);
        if b : bool then lift (py_mul_int employees 1200000)
        else lift (py_mul_int employees 1000000).

Definition _classify_company_size (company : loc) : M string :=
  employees ← dict_get company "antallAnsatte" (VInt 0);
  if py_eq_int employees 0 then mret "micro"
  else
    b ← lift (py_le_int employees 10);
    if b : bool then mret "small"
    else
      b ← lift (py_le_int employees 50);
      if b : bool then mret "medium"
      else
        b ← lift (py_le_int employees 250);
        if b : bool then mret "large"
        else mret "very_large".

(** The inline table of [_get_industry_category], in source order. *)
Definition industry_mapping : list (string * string) :=
  [
    ("01", "agriculture"); ("02", "agriculture"); ("03", "agriculture");
    ("05", "mining"); ("06", "mining"); ("07", "mining"); ("08", "mining");
    ("09", "mining"); ("10", "manufacturing"); ("11", "manufacturing");
    ("12", "manufacturing"); ("13", "manufacturing"); ("14", "manufacturing");
    ("15", "manufacturing"); ("16", "manufacturing"); ("17", "manufacturing");
    ("18", "manufacturing"); ("19", "manufacturing"); ("20", "manufacturing");
    ("21", "manufacturing"); ("22", "manufacturing"); ("23", "manufacturing");
    ("24", "manufacturing"); ("25", "manufacturing"); ("26", "manufacturing");
    ("27", "manufacturing"); ("28", "manufacturing"); ("29", "manufacturing");
    ("30", "manufacturing"); ("31", "manufacturing"); ("32", "manufacturing");
    ("33", "manufacturing"); ("35", "utilities"); ("36", "utilities");
    ("37", "utilities"); ("38", "utilities"); ("39", "utilities");
    ("41", "construction"); ("42", "construction"); ("43", "construction");
    ("45", "trade"); ("46", "trade"); ("47", "trade"); ("49", "transport");
    ("50", "transport"); ("51", "transport"); ("52", "transport");
    ("53", "transport"); ("55", "accommodation"); ("56", "accommodation");
    ("58", "information"); ("59", "information"); ("60", "information");
    ("61", "information"); ("62", "information"); ("63", "information");
    ("64", "finance"); ("65", "finance"); ("66", "finance");
    ("68", "real_estate"); ("69", "professional"); ("70", "professional");
    ("71", "professional"); ("72", "professional"); ("73", "professional");
    ("74", "professional"); ("75", "professional"); ("77", "services");
    ("78", "services"); ("79", "services"); ("80", "services");
    ("81", "services"); ("82", "services"); ("84", "public");
    ("85", "education"); ("86", "health"); ("87", "health"); ("88", "health");
    ("90", "arts"); ("91", "arts"); ("92", "arts"); ("93", "arts");
    ("94", "other"); ("95", "other"); ("96", "other"); ("97", "other");
    ("98", "other"); ("99", "other")
  ].

(** [table.get(k, dflt)] for a dictionary literal with distinct keys. *)
Fixpoint table_get (table : list (string * string)) (k dflt : string) : string :=
  match table with
  | [] => dflt
  | (k', v) :: rest => if String.eqb k k' then v else table_get rest k dflt
  end.

Definition _get_industry_category (company : loc) : M string :=
  (* company.get('naeringskode1', {}).get('kode', '') ; the temporary [{}]
     of the default is not kept in the heap *)
  inner ← dict_lookup company "naeringskode1";
  nace_code ← match inner with
              | Some v => value_get v "kode" (VStr "")
              | None => mret (VStr "")
              end;
  falsy ← py_not nace_code;
  if falsy : bool then mret "unknown"
  else
    n ← py_len nace_code;
    code_num ← (if 2 <=? n then py_slice_to nace_code 2 else mret "");
    mret (table_get industry_mapping code_num "other").

(** The loop of [filter_large_companies]; [filtered] is the list built so
    far. *)
Fixpoint filter_loop (companies : list loc) (min_employees : Z)
    (filtered : list loc) : M (list loc) :=
  match companies with
  | [] => mret filtered
  | company :: rest =>
      employees ← dict_get company "antallAnsatte" VNone;
      keep ← (if is_none employees then mret false
              else lift (py_ge_int employees min_employees));
      filter_loop rest min_employees
        (if keep : bool then filtered ++ [company] else filtered)
  end.

Definition filter_large_companies (companies : list loc) (min_employees : Z)
    : M (list loc) :=
  filter_loop companies min_employees [].

Definition get_revenue (company : loc) : M value :=
  revenue ← dict_get company "estimated_revenue" VNone;
  mret (if is_none revenue then VInt 0 else revenue).

Definition sort_by_revenue_estimate (companies : list loc) : M (list loc) :=
  sorted companies get_revenue true.

Definition enrich_company_data (company : loc) : M loc :=
  enriched ← dict_copy company;
  revenue_estimate ← _estimate_revenue company;
  dict_setitem enriched "estimated_revenue" revenue_estimate;;
  size ← _classify_company_size company;
  dict_setitem enriched "size_category" (VStr size);;
  industry ← _get_industry_category company;
  dict_setitem enriched "industry_category" (VStr industry);;
  mret enriched.

End CompanyAnalyzer.

(** ** DomainFinder *)

Module DomainFinder.

(** *** Strings

    A Python [str] is a sequence of Unicode code points; the model covers
    the names whose code points are below 256 and writes them as [string].
    What [str.lower] and the regular-expression classes [\s] and [\w] do on
    ASCII is written out; on the code points from 128 on it is the business
    of the Unicode database, which the functions take as a table. *)

Record unicode_tables : Type := {
  lower_hi : ascii → ascii;
  space_hi : ascii → bool;
  word_hi : ascii → bool
}.

Definition code (c : ascii) : N := N_of_ascii c.

Definition in_range (lo hi : N) (c : ascii) : bool :=
  ((lo <=? code c) && (code c <=? hi))%N.

Definition is_ascii (c : ascii) : bool := (code c <? 128)%N.

Definition is_az (c : ascii) : bool := in_range 97 122 c.
Definition is_AZ (c : ascii) : bool := in_range 65 90 c.
Definition is_09 (c : ascii) : bool := in_range 48 57 c.

Fixpoint string_map (f : ascii → ascii) (s : string) : string :=
  match s with
  | EmptyString => EmptyString
  | String c s' => String (f c) (string_map f s')
  end.

Fixpoint string_filter (keep : ascii → bool) (s : string) : string :=
  match s with
  | EmptyString => EmptyString
  | String c s' =>
      if keep c then String c (string_filter keep s') else string_filter keep s'
  end.

Section Strings.
Variable U : unicode_tables.

Definition char_lower (c : ascii) : ascii :=
  if is_ascii c then
    if is_AZ c then ascii_of_N (code c + 32) else c
  else lower_hi U c.

(** [s.lower()] *)
Definition lower (s : string) : string := string_map char_lower s.

(** The class [\s] of a [str] pattern. *)
Definition is_space (c : ascii) : bool :=
  if is_ascii c then in_range 9 13 c || in_range 28 32 c else space_hi U c.

(** The class [\w] of a [str] pattern. *)
Definition is_word (c : ascii) : bool :=
  if is_ascii c then is_az c || is_AZ c || is_09 c || bool_decide (c = "_"%char)
  else word_hi U c.

(** [re.sub(r'\s+', '', s)]: every run of white space is deleted. *)
Definition re_sub_spaces (s : string) : string :=
  string_filter (λ c, negb (is_space c)) s.

(** [re.sub(r'[^a-z0-9]', '', s)]: every other character is deleted. *)
Definition re_sub_non_alnum (s : string) : string :=
  string_filter (λ c, is_az c || is_09 c) s.

(** [s.endswith(suffix)] *)
Definition endswith (s suffix : string) : bool :=
  let n := String.length s in
  let k := String.length suffix in
  (k <=? n)%nat && String.eqb (String.substring (n - k) k s) suffix.

(** [s[:-k]] for [k > 0]. *)
Definition drop_last (k : nat) (s : string) : string :=
  String.substring 0 (String.length s - k) s.

(** The loop over [suffixes_to_remove], which stops at the first suffix
    that matches. *)
Fixpoint remove_first_suffix (suffixes : list string) (clean_name : string)
    : string :=
  match suffixes with
  | [] => clean_name
  | suffix :: rest =>
      if endswith clean_name suffix
      then drop_last (String.length suffix) clean_name
      else remove_first_suffix rest clean_name
  end.

Definition suffixes_to_remove : list string :=
  ["as"; "asa"; "ba"; "da"; "iks"; "ks"; "nuf"; "sa"; "sf"].

Definition _guess_domains_from_name (company_name : string) : gset string :=
  if bool_decide (company_name = "") then ∅
  else
    let clean_name := re_sub_spaces (lower company_name) in
    let clean_name := re_sub_non_alnum clean_name in
    let clean_name := remove_first_suffix suffixes_to_remove clean_name in
    if (3 <=? String.length clean_name)%nat then
      let tlds := [".no"; ".com"; ".org"; ".net"] in
      foldl (λ (domains : gset string) tld,
               domains ∪ {[ String.append clean_name tld ]}) ∅ tlds
    else ∅.

Definition _search_whois_by_org_number (org_number : string) : gset string :=
  ∅.

(** *** [re.findall(r'\b[a-zA-Z]+\b', s)]

    A match is a run of ASCII letters with a word boundary on both sides,
    that is, a maximal run of [\w] characters all of which are ASCII
    letters.  The scanner reads [s] from the left and remembers where it
    is: outside a word, inside a run of letters that began at a boundary,
    or inside a word that holds some other [\w] character. *)

Inductive scan_state : Type :=
  | Outside
  | InLetters (run : string)
  | InOtherWord.

Definition is_letter (c : ascii) : bool := is_az c || is_AZ c.

Definition scan_step (st : scan_state) (c : ascii)
    : scan_state * list string :=
  if is_letter c then
    match st with
    | Outside => (InLetters (String c EmptyString), [])
    | InLetters run => (InLetters (String.append run (String c EmptyString)), [])
    | InOtherWord => (InOtherWord, [])
    end
  else if is_word c then (InOtherWord, [])
  else
    match st with
    | InLetters run => (Outside, [run])
    | _ => (Outside, [])
    end.

Fixpoint scan_words (st : scan_state) (s : string) : list string :=
  match s with
  | EmptyString =>
      match st with InLetters run => [run] | _ => [] end
  | String c s' =>
      let '(st', found) := scan_step st c in
      found ++ scan_words st' s'
  end.

Definition findall_words (s : string) : list string := scan_words Outside s.

(** [sep.join(words)] *)
Fixpoint join (sep : string) (words : list string) : string :=
  match words with
  | [] => ""
  | [w] => w
  | w :: rest => String.append w (String.append sep (join sep rest))
  end.

Definition _search_common_patterns (company_name : string) : gset string :=
  let domains : gset string := ∅ in
  if bool_decide (company_name = "") then domains
  else
    let words := findall_words (lower company_name) in
    let domains :=
      match words with
      | main_word :: _ =>
          if (3 <=? String.length main_word)%nat
          then domains ∪ {[ String.append main_word ".no" ]}
                       ∪ {[ String.append main_word ".com" ]}
          else domains
      | [] => domains
      end in
    if (2 <=? length words)%nat then
      let combined := join "" (take 2 words) in
      let domains :=
        if (4 <=? String.length combined)%nat
        then domains ∪ {[ String.append combined ".no" ]}
                     ∪ {[ String.append combined ".com" ]}
        else domains in
      let dashed := join "-" (take 2 words) in
      domains ∪ {[ String.append dashed ".no" ]}
              ∪ {[ String.append dashed ".com" ]}
    else domains.

(** The set [domains] that [find_domains_for_company] builds before it
    verifies its members. *)
Definition candidate_domains (company_name org_number : string) : gset string :=
  let domains : gset string := ∅ in
  let domains := domains ∪ _guess_domains_from_name company_name in
  let domains := domains ∪ _search_whois_by_org_number org_number in
  domains ∪ _search_common_patterns company_name.

End Strings.

(** *** The network

    What the resolver and the HTTP client answer is not the program's
    doing: [socket.gethostbyname] and [session.head] are fields of an
    environment, and each call returns or raises. *)

Record network : Type := {
  gethostbyname : string → result unit;
  session_head : string → result unit
}.

(** The classes of [except (socket.gaierror, socket.timeout,
    requests.RequestException)]. *)
Definition resolution_errors (e : exn) : bool :=
  match e with
  | gaierror | socket_timeout | RequestException => true
  | _ => false
  end.

Definition _verify_domain (net : network) (domain : string) : result bool :=
  try_except
    (gethostbyname net domain;;
     (* [Some b]: the inner statement returned [b]; [None]: it fell through *)
     returned ← try_except
       (session_head net (String.append "http://" domain);;
        mret (Some true))
       any_exception
       (try_except
          (session_head net (String.append "https://" domain);;
           mret (Some true))
          any_exception
          (mret None));
     match returned with
     | Some b => mret b
     | None => mret true
     end)
    resolution_errors
    (mret false).

(** *** A resolver without a network

    [socket.gethostbyname] first converts its argument with the [idna]
    codec, which for an ASCII host name splits it at the dots and raises
    [UnicodeError] when a label other than the last is empty or a label is
    longer than 63 characters; the look-up itself fails with
    [socket.gaierror] when no name server can be reached.  The empty name
    needs no look-up: it resolves to the address 0.0.0.0.  What the codec
    does with a name that holds other than ASCII characters (nameprep and
    Punycode) is left out: such a name is taken to pass the conversion. *)

Fixpoint split_dots (cur : string) (s : string) : list string :=
  match s with
  | EmptyString => [cur]
  | String c s' =>
      if bool_decide (c = "."%char) then cur :: split_dots "" s'
      else split_dots (String.append cur (String c EmptyString)) s'
  end.

Fixpoint labels_ok (labels : list string) : bool :=
  match labels with
  | [] => true
  | [last] => (String.length last <? 64)%nat
  | label :: rest =>
      (0 <? String.length label)%nat && (String.length label <? 64)%nat
      && labels_ok rest
  end.

Fixpoint all_ascii (s : string) : bool :=
  match s with
  | EmptyString => true
  | String c s' => is_ascii c && all_ascii s'
  end.

Definition idna_accepts (host : string) : bool :=
  bool_decide (host = "") || negb (all_ascii host) || labels_ok (split_dots "" host).

Definition offline : network := {|
  gethostbyname host :=
    if bool_decide (host = "") then Ok tt
    else if idna_accepts host then Raise gaierror else Raise UnicodeError;
  session_head url := Raise RequestException
|}.

End DomainFinder.

(** ** Vocabulary of the statements *)

Import CompanyAnalyzer.

(** The employee count of a record, as the readers see it. *)
Definition employees_of (d : gmap string value) : option value :=
  d !! "antallAnsatte".

(** The five buckets with their ranges, upper ends included. *)
Definition in_bucket (e : Z) (s : string) : Prop :=
  (e = 0 ∧ s = "micro") ∨
  (1 ≤ e ≤ 10 ∧ s = "small") ∨
  (11 ≤ e ≤ 50 ∧ s = "medium") ∨
  (51 ≤ e ≤ 250 ∧ s = "large") ∨
  (250 < e ∧ s = "very_large").

(** The place of a label in the order micro < small < medium < large <
    very_large. *)
Definition size_rank (s : string) : nat :=
  if String.eqb s "micro" then 0
  else if String.eqb s "small" then 1
  else if String.eqb s "medium" then 2
  else if String.eqb s "large" then 3
  else 4.

(** The estimate [r] for the count [e] under a floor value and four
    per-head rates, one for each tier of counts. *)
Definition tier_estimate (floor rate1 rate2 rate3 rate4 e r : Z) : Prop :=
  (e = 0 ∧ r = floor) ∨
  (1 ≤ e ≤ 10 ∧ r = e * rate1) ∨
  (11 ≤ e ≤ 50 ∧ r = e * rate2) ∨
  (51 ≤ e ≤ 250 ∧ r = e * rate3) ∨
  (250 < e ∧ r = e * rate4).

(** Two counts [e1 ≤ e2] of one tier. *)
Definition same_tier (e1 e2 : Z) : Prop :=
  (e1 = 0 ∧ e2 = 0) ∨ (1 ≤ e1 ∧ e2 ≤ 10) ∨ (11 ≤ e1 ∧ e2 ≤ 50) ∨
  (51 ≤ e1 ∧ e2 ≤ 250) ∨ 250 < e1.

(** A record whose employee count is unknown: no item, or [None]. *)
Definition employees_absent (d : gmap string value) : Prop :=
  employees_of d = None ∨ employees_of d = Some VNone.

(** ** Sample records *)

Definition sample_heap : gmap loc (gmap string value) :=
  {[ 1%positive := {[ "navn" := VStr "Nordic Kraft AS";
                      "organisasjonsnummer" := VStr "900000000";
                      "antallAnsatte" := VInt 120 ]};
     2%positive := {[ "antallAnsatte" := VInt 10;
                      "naeringskode1" := VRef 7%positive ]};
     3%positive := {[ "antallAnsatte" := VInt 11 ]};
     4%positive := {[ "navn" := VStr "Uten Ansatte" ]};
     5%positive := {[ "antallAnsatte" := VNone ]};
     6%positive := {[ "antallAnsatte" := VStr "12" ]};
     7%positive := {[ "kode" := VStr "62.010" ]} ]}.

(** The record [d] carries the industry code [s]: its item
    [naeringskode1] is a dictionary whose item [kode] is the string [s]. *)
Definition has_nace_code (σ : gmap loc (gmap string value))
    (d : gmap string value) (s : string) : Prop :=
  ∃ l (d' : gmap string value),
    d !! "naeringskode1" = Some (VRef l) ∧ σ !! l = Some d' ∧
    d' !! "kode" = Some (VStr s).

(** The record [d] carries no industry code: there is no item
    [naeringskode1], or it is a dictionary whose item [kode] is missing,
    [None] or the empty string. *)
Definition no_nace_code (σ : gmap loc (gmap string value))
    (d : gmap string value) : Prop :=
  d !! "naeringskode1" = None ∨
  ∃ l (d' : gmap string value),
    d !! "naeringskode1" = Some (VRef l) ∧ σ !! l = Some d' ∧
    (d' !! "kode" = None ∨ d' !! "kode" = Some VNone ∨
     d' !! "kode" = Some (VStr "")).

(** A record whose employee count, if present, is an integer. *)
Definition employees_typed (d : gmap string value) : Prop :=
  employees_absent d ∨ ∃ e, employees_of d = Some (VInt e).

(** The record at [c] has a known employee count of at least
    [min_employees]. *)
Definition large_enough (σ : gmap loc (gmap string value)) (min_employees : Z)
    (c : loc) : bool :=
  match σ !! c with
  | Some d =>
      match employees_of d with
      | Some (VInt e) => min_employees <=? e
      | _ => false
      end
  | None => false
  end.

(** A computation that only reads the heap. *)
Definition reader {A} (m : M A) : Prop := ∀ σ, (m σ).2 = σ.

(** The three items that enrichment adds to a record. *)
Definition derived_keys : list string :=
  ["estimated_revenue"; "size_category"; "industry_category"].

(** A record whose industry code, if any, is a string: the item
    [naeringskode1] is missing, or is a dictionary whose item [kode] is
    missing, [None] or a string. *)
Definition industry_code_typed (σ : gmap loc (gmap string value))
    (d : gmap string value) : Prop :=
  no_nace_code σ d ∨ ∃ s, has_nace_code σ d s.

(** A record whose employee count is missing or an integer. *)
Definition employees_missing_or_int (d : gmap string value) : Prop :=
  employees_of d = None ∨ ∃ e, employees_of d = Some (VInt e).

(** The record that enrichment builds from [d] and the three derived
    values. *)
Definition enriched_record (d : gmap string value) (revenue : value)
    (size industry : string) : gmap string value :=
  <["industry_category" := VStr industry]>
    (<["size_category" := VStr size]>
       (<["estimated_revenue" := revenue]> d)).

(** ** Stable insertion on integer keys

    What [sorted] computes when every key is an integer, written without
    the keys' tags and without exceptions: the steps are those of
    [insert_by_lt] and [sort_ascending], with [<] on [Z]. *)

Section IntegerKeys.
Context {A : Type} (k : A → Z).

Fixpoint insert_stable (x : A) (ys : list A) : list A :=
  match ys with
  | [] => [x]
  | y :: ys' => if k x <? k y then x :: y :: ys' else y :: insert_stable x ys'
  end.

Fixpoint insertion_sort (placed todo : list A) : list A :=
  match todo with
  | [] => placed
  | x :: rest => insertion_sort (insert_stable x placed) rest
  end.

(** The list that [sorted(xs, key=k, reverse=True)] returns on integer
    keys. *)
Definition sorted_descending (xs : list A) : list A :=
  rev (insertion_sort [] (rev xs)).

(** An item together with its key, as [sorted] holds it. *)
Definition keyed (x : A) : value * A := (VInt (k x), x).

(** The items of key [v], in their order. *)
Definition with_key (v : Z) (l : list A) : list A :=
  List.filter (λ x, k x =? v) l.

End IntegerKeys.

(** A record whose revenue estimate is missing, [None] or an integer. *)
Definition revenue_typed (d : gmap string value) : Prop :=
  d !! "estimated_revenue" = None ∨
  d !! "estimated_revenue" = Some VNone ∨
  ∃ r, d !! "estimated_revenue" = Some (VInt r).

(** The key by which the record at [c] is compared: its estimate, or 0
    when it has none. *)
Definition revenue_key (σ : gmap loc (gmap string value)) (c : loc) : Z :=
  match σ !! c with
  | Some d =>
      match d !! "estimated_revenue" with
      | Some (VInt r) => r
      | _ => 0
      end
  | None => 0
  end.

(** The record at [c] carries no estimate. *)
Definition revenue_absent (σ : gmap loc (gmap string value)) (c : loc) : Prop :=
  ∃ d : gmap string value,
    σ !! c = Some d ∧
    (d !! "estimated_revenue" = None ∨ d !! "estimated_revenue" = Some VNone).

Definition sample_ranking : gmap loc (gmap string value) :=
  {[ 1%positive := {[ "navn" := VStr "A"; "estimated_revenue" := VInt 5000000 ]};
     2%positive := {[ "navn" := VStr "B"; "estimated_revenue" := VNone ]};
     3%positive := {[ "navn" := VStr "C"; "estimated_revenue" := VInt 20000000 ]};
     4%positive := {[ "navn" := VStr "D"; "estimated_revenue" := VInt 5000000 ]};
     5%positive := {[ "navn" := VStr "E" ]} ]}.

(** Tables for names that hold ASCII only: the entries above 127 are never
    read. *)
Definition ascii_tables : DomainFinder.unicode_tables := {|
  DomainFinder.lower_hi := λ c, c;
  DomainFinder.space_hi := λ _, false;
  DomainFinder.word_hi := λ _, false
|}.

(** A host name whose first label has 64 characters. *)
Definition long_label_domain : string :=
  String.append (string_repeat "a" 64) ".no".

(** ** Host names *)

(** Every character of [s] passes [p]. *)
Fixpoint string_forallb (p : ascii → bool) (s : string) : bool :=
  match s with
  | EmptyString => true
  | String c s' => p c && string_forallb p s'
  end.

(** A letter, a digit or a hyphen: the characters of a label of a host
    name. *)
Definition is_label_char (c : ascii) : bool :=
  DomainFinder.is_az c || DomainFinder.is_AZ c || DomainFinder.is_09 c ||
  bool_decide (c = "-"%char).

(** The endings of the candidates. *)
Definition tlds : list string := [".no"; ".com"; ".org"; ".net"].

(** ** The callers *)

(** *** [find_domains_for_company]

    The name and the number are whatever values the record holds.  The two
    strategies that read the name begin with [if not company_name: return
    set()] and then call [company_name.lower()], a method that strings
    alone have.  The candidates are verified one after the other in the
    order in which the set hands them out, which is not the program's to
    choose; the first exception that [_verify_domain] lets through ends
    the loop. *)

Definition on_name (strategy : string → gset string) (company_name : value)
    : M (gset string) :=
  match company_name with
  | VStr s => mret (strategy s)
  | _ =>
      falsy ← py_not company_name;
      if falsy : bool then mret ∅ else raise AttributeError
  end.

(** [_search_whois_by_org_number] does not look at its argument. *)
Definition on_org_number (org_number : value) : gset string :=
  match org_number with
  | VStr s => DomainFinder._search_whois_by_org_number s
  | _ => ∅
  end.

Fixpoint verify_loop (net : DomainFinder.network) (domains : list string)
    (verified_domains : gset string) : result (gset string) :=
  match domains with
  | [] => Ok verified_domains
  | domain :: rest =>
      match DomainFinder._verify_domain net domain with
      | Ok true => verify_loop net rest (verified_domains ∪ {[ domain ]})
      | Ok false => verify_loop net rest verified_domains
      | Raise e => Raise e
      end
  end.

Definition find_domains_for_company (U : DomainFinder.unicode_tables)
    (net : DomainFinder.network) (iteration : gset string → list string)
    (company_data : loc) : M (gset string) :=
  let domains : gset string := ∅ in
  company_name ← dict_get company_data "navn" (VStr "");
  org_number ← dict_get company_data "organisasjonsnummer" (VStr "");
  guessed ← on_name (DomainFinder._guess_domains_from_name U) company_name;
  let domains := domains ∪ guessed in
  let domains := domains ∪ on_org_number org_number in
  patterns ← on_name (DomainFinder._search_common_patterns U) company_name;
  let domains := domains ∪ patterns in
  lift (verify_loop net (iteration domains) ∅).

(** The name of a record as the strategies use it: a missing name and the
    name [None] give no candidate, as the empty name does. *)
Definition name_of (d : gmap string value) : string :=
  match d !! "navn" with
  | Some (VStr s) => s
  | _ => ""
  end.

(** A record whose name is missing, [None] or a string. *)
Definition name_typed (d : gmap string value) : Prop :=
  d !! "navn" = None ∨ d !! "navn" = Some VNone ∨
  ∃ s, d !! "navn" = Some (VStr s).

(** *** Steps 2 to 4 of [main]: filter, enrich, rank, cut *)

(** The loop that enriches the records that passed the filter. *)
Fixpoint enrich_loop (large_companies : list loc)
    (enriched_companies : list loc) : M (list loc) :=
  match large_companies with
  | [] => mret enriched_companies
  | company :: rest =>
      enriched ← enrich_company_data company;
      enrich_loop rest (enriched_companies ++ [enriched])
  end.

(** [xs[:n]] on a list: a negative [n] counts from the end. *)
Definition list_slice_to {A} (xs : list A) (n : Z) : list A :=
  if 0 <=? n then take (Z.to_nat n) xs
  else take (length xs - Z.to_nat (- n)) xs.

Definition top_companies (all_companies : list loc)
    (min_employees max_companies : Z) : M (list loc) :=
  large_companies ← filter_large_companies all_companies min_employees;
  enriched_companies ← enrich_loop large_companies [];
  sorted_companies ← sort_by_revenue_estimate enriched_companies;
  mret (list_slice_to sorted_companies max_companies).

(** The record at [c'] in [σ'] is the enrichment of the record at [c] in
    [σ]: the items of that record and the three values the readers give
    on it. *)
Definition enriched_from (σ σ' : gmap loc (gmap string value)) (c c' : loc)
    : Prop :=
  ∃ (d : gmap string value) revenue size industry,
    σ !! c = Some d ∧
    _estimate_revenue c σ = (Ok revenue, σ) ∧
    _classify_company_size c σ = (Ok size, σ) ∧
    _get_industry_category c σ = (Ok industry, σ) ∧
    σ' !! c' = Some (enriched_record d revenue size industry).

(** A record fit for the steps 2 to 4: a count that is missing, [None] or
    an integer, and an industry code that is missing, [None] or a
    string. *)
Definition well_formed (σ : gmap loc (gmap string value)) (c : loc) : Prop :=
  ∃ d : gmap string value,
    σ !! c = Some d ∧ employees_typed d ∧ industry_code_typed σ d.

(** A resolver that knows the names under [.no] and no others. *)
Definition norwegian_only : DomainFinder.network := {|
  DomainFinder.gethostbyname host :=
    if DomainFinder.endswith host ".no" then Ok tt else Raise gaierror;
  DomainFinder.session_head url := Raise RequestException
|}.

(** Records with unusual names: a number, and a word of 64 letters. *)
Definition sample_names : gmap loc (gmap string value) :=
  {[ 1%positive := {[ "navn" := VInt 7 ]};
     2%positive := {[ "navn" := VStr (string_repeat "a" 64) ]} ]}.

(** Records with unusual industry codes: [None] in the place of the
    dictionary, and a number in the place of the code. *)
Definition sample_codes : gmap loc (gmap string value) :=
  {[ 1%positive := {[ "naeringskode1" := VNone ]};
     2%positive := {[ "naeringskode1" := VRef 3%positive ]};
     3%positive := {[ "kode" := VInt 62 ]} ]}.

(** Two records of one tier, with 12 and with 50 employees. *)
Definition sample_tier : gmap loc (gmap string value) :=
  {[ 1%positive := {[ "antallAnsatte" := VInt 12 ]};
     2%positive := {[ "antallAnsatte" := VInt 50 ]} ]}.

(** * Properties *)

(** ** Running computations *)

Lemma bind_ok {A B} (m : M A) (f : A → M B) σ a σ' :
  m σ = (Ok a, σ') → (m ≫= f) σ = f a σ'.
Proof. intros H. unfold mbind, M_bind. by rewrite H. Qed.

Lemma bind_raise {A B} (m : M A) (f : A → M B) σ e σ' :
  m σ = (Raise e, σ') → (m ≫= f) σ = (Raise e, σ').
Proof. intros H. unfold mbind, M_bind. by rewrite H. Qed.

Lemma dict_get_ok σ l (d : gmap string value) k dflt :
  σ !! l = Some d → dict_get l k dflt σ = (Ok (default dflt (d !! k)), σ).
Proof. intros H. unfold dict_get. by rewrite H. Qed.

Lemma dict_lookup_ok σ l (d : gmap string value) k :
  σ !! l = Some d → dict_lookup l k σ = (Ok (d !! k), σ).
Proof. intros H. unfold dict_lookup. by rewrite H. Qed.

(** Unfolds the monad's operations, so that a computation applied to a heap
    reduces. *)
Ltac run_M :=
  unfold mbind, M_bind, mret, M_ret, lift, raise; simpl.

Import CompanyAnalyzer.

(** *** Size classification on integer counts *)

Lemma classify_company_size_int σ c (d : gmap string value) e :
  σ !! c = Some d → employees_of d = Some (VInt e) →
  _classify_company_size c σ =
    (Ok (if e =? 0 then "micro"
         else if e <=? 10 then "small"
         else if e <=? 50 then "medium"
         else if e <=? 250 then "large"
         else "very_large"), σ).
Proof.
  intros Hc He. unfold _classify_company_size.
  rewrite (bind_ok _ _ _ _ _ (dict_get_ok _ _ _ _ _ Hc)).
  unfold employees_of in He. rewrite He. simpl.
  destruct (e =? 0); [done|]. run_M.
  destruct (e <=? 10); [done|].
  destruct (e <=? 50); [done|].
  by destruct (e <=? 250).
Qed.

Lemma bucket_of_int e :
  0 ≤ e →
  in_bucket e (if e =? 0 then "micro"
               else if e <=? 10 then "small"
               else if e <=? 50 then "medium"
               else if e <=? 250 then "large"
               else "very_large").
Proof.
  intros H. unfold in_bucket.
  destruct (Z.eqb_spec e 0); [auto|].
  destruct (Z.leb_spec e 10); [right; left; split; [lia|done]|].
  destruct (Z.leb_spec e 50); [right; right; left; split; [lia|done]|].
  destruct (Z.leb_spec e 250); [right; right; right; left; split; [lia|done]|].
  right; right; right; right. split; [lia|done].
Qed.

Lemma in_bucket_rank_mono e1 e2 s1 s2 :
  in_bucket e1 s1 → in_bucket e2 s2 → e1 ≤ e2 →
  (size_rank s1 ≤ size_rank s2)%nat.
Proof.
  unfold in_bucket.
  intros [[? ->]|[[? ->]|[[? ->]|[[? ->]|[? ->]]]]]
         [[? ->]|[[? ->]|[[? ->]|[[? ->]|[? ->]]]]] Hle;
    first [ lia | vm_compute; lia ].
Qed.

(** C4: on every non-negative integer employee count the size
    classification returns the label of the one bucket whose range holds
    the count (0 micro, 1-10 small, 11-50 medium, 51-250 large, above 250
    very_large, upper ends included), and a larger count never gets a
    smaller bucket. *)
Theorem classify_company_size_buckets σ c1 c2 (d1 d2 : gmap string value) e1 e2 :
  σ !! c1 = Some d1 → σ !! c2 = Some d2 →
  employees_of d1 = Some (VInt e1) → employees_of d2 = Some (VInt e2) →
  0 ≤ e1 → e1 ≤ e2 →
  ∃ s1 s2,
    _classify_company_size c1 σ = (Ok s1, σ) ∧
    _classify_company_size c2 σ = (Ok s2, σ) ∧
    in_bucket e1 s1 ∧ in_bucket e2 s2 ∧
    (size_rank s1 ≤ size_rank s2)%nat.
Proof.
  intros Hc1 Hc2 He1 He2 H0 Hle.
  eexists _, _.
  split; [by apply (classify_company_size_int _ _ _ _ Hc1 He1)|].
  split; [by apply (classify_company_size_int _ _ _ _ Hc2 He2)|].
  assert (B1 := bucket_of_int e1 H0).
  assert (B2 := bucket_of_int e2 ltac:(lia)).
  split; [done|]. split; [done|].
  by apply (in_bucket_rank_mono e1 e2).
Qed.

(** *** The revenue estimate *)

Lemma estimate_revenue_int σ c (d : gmap string value) e :
  σ !! c = Some d → employees_of d = Some (VInt e) →
  _estimate_revenue c σ =
    (Ok (VInt (if e =? 0 then 1000000
               else if e <=? 10 then e * 2000000
               else if e <=? 50 then e * 1500000
               else if e <=? 250 then e * 1200000
               else e * 1000000)), σ).
Proof.
  intros Hc He. unfold _estimate_revenue.
  rewrite (bind_ok _ _ _ _ _ (dict_get_ok _ _ _ _ _ Hc)).
  unfold employees_of in He. rewrite He. simpl.
  destruct (e =? 0); [done|]. run_M.
  destruct (e <=? 10); [done|].
  destruct (e <=? 50); [done|].
  by destruct (e <=? 250).
Qed.

Lemma estimate_revenue_absent σ c (d : gmap string value) :
  σ !! c = Some d → employees_absent d →
  _estimate_revenue c σ = (Ok VNone, σ).
Proof.
  intros Hc Ha. unfold _estimate_revenue.
  rewrite (bind_ok _ _ _ _ _ (dict_get_ok _ _ _ _ _ Hc)).
  unfold employees_absent, employees_of in Ha.
  by destruct Ha as [-> | ->].
Qed.

Lemma tier_estimate_of_int e :
  0 ≤ e →
  tier_estimate 1000000 2000000 1500000 1200000 1000000 e
    (if e =? 0 then 1000000
     else if e <=? 10 then e * 2000000
     else if e <=? 50 then e * 1500000
     else if e <=? 250 then e * 1200000
     else e * 1000000).
Proof.
  intros H. unfold tier_estimate.
  destruct (Z.eqb_spec e 0); [auto|].
  destruct (Z.leb_spec e 10); [right; left; split; [lia|done]|].
  destruct (Z.leb_spec e 50); [right; right; left; split; [lia|done]|].
  destruct (Z.leb_spec e 250); [right; right; right; left; split; [lia|done]|].
  right; right; right; right. split; [lia|done].
Qed.

(** C7: the estimate is piecewise: the floor 1000000 at 0 employees, else
    the count times the rate of its tier; the four rates decrease strictly
    from tier to tier; within a tier a larger count never gets a smaller
    estimate; an unknown count gives [None], not 0. *)
Theorem estimate_revenue_tiers :
  (∀ σ c (d : gmap string value) e,
     σ !! c = Some d → employees_of d = Some (VInt e) → 0 ≤ e →
     ∃ r, _estimate_revenue c σ = (Ok (VInt r), σ) ∧
          tier_estimate 1000000 2000000 1500000 1200000 1000000 e r) ∧
  (2000000 > 1500000 ∧ 1500000 > 1200000 ∧ 1200000 > 1000000) ∧
  (∀ σ c1 c2 (d1 d2 : gmap string value) e1 e2 r1 r2,
     σ !! c1 = Some d1 → σ !! c2 = Some d2 →
     employees_of d1 = Some (VInt e1) → employees_of d2 = Some (VInt e2) →
     0 ≤ e1 → e1 ≤ e2 → same_tier e1 e2 →
     _estimate_revenue c1 σ = (Ok (VInt r1), σ) →
     _estimate_revenue c2 σ = (Ok (VInt r2), σ) →
     r1 ≤ r2) ∧
  (∀ σ c (d : gmap string value),
     σ !! c = Some d → employees_absent d →
     _estimate_revenue c σ = (Ok VNone, σ) ∧
     _estimate_revenue c σ ≠ (Ok (VInt 0), σ)).
Proof.
  split; [|split; [|split]].
  - intros σ c d e Hc He H0. eexists. split.
    + by apply (estimate_revenue_int _ _ _ _ Hc He).
    + by apply tier_estimate_of_int.
  - lia.
  - intros σ c1 c2 d1 d2 e1 e2 r1 r2 Hc1 Hc2 He1 He2 H0 Hle Ht.
    rewrite (estimate_revenue_int _ _ _ _ Hc1 He1).
    rewrite (estimate_revenue_int _ _ _ _ Hc2 He2).
    intros [= <-] [= <-]. unfold same_tier in Ht.
    destruct (Z.eqb_spec e1 0), (Z.eqb_spec e2 0); try lia;
    destruct (Z.leb_spec e1 10), (Z.leb_spec e2 10); try lia;
    destruct (Z.leb_spec e1 50), (Z.leb_spec e2 50); try lia;
    destruct (Z.leb_spec e1 250), (Z.leb_spec e2 250); lia.
  - intros σ c d Hc Ha.
    rewrite (estimate_revenue_absent _ _ _ Hc Ha). by split.
Qed.

Lemma estimate_revenue_tiers_witness :
  (∃ r, _estimate_revenue 1%positive sample_heap = (Ok (VInt r), sample_heap) ∧
        tier_estimate 1000000 2000000 1500000 1200000 1000000 120 r) ∧
  (∃ r1 r2,
     _estimate_revenue 1%positive sample_tier = (Ok (VInt r1), sample_tier) ∧
     _estimate_revenue 2%positive sample_tier = (Ok (VInt r2), sample_tier) ∧
     same_tier 12 50 ∧ r1 ≤ r2) ∧
  _estimate_revenue 5%positive sample_heap = (Ok VNone, sample_heap).
Proof.
  destruct estimate_revenue_tiers as (Hint & _ & Hmono & Habs).
  split; [|split].
  - apply (Hint sample_heap 1%positive
             {[ "navn" := VStr "Nordic Kraft AS";
                "organisasjonsnummer" := VStr "900000000";
                "antallAnsatte" := VInt 120 ]} 120); [reflexivity|reflexivity|lia].
  - destruct (Hint sample_tier 1%positive {[ "antallAnsatte" := VInt 12 ]} 12)
      as (r1 & H1 & _); [reflexivity|reflexivity|lia|].
    destruct (Hint sample_tier 2%positive {[ "antallAnsatte" := VInt 50 ]} 50)
      as (r2 & H2 & _); [reflexivity|reflexivity|lia|].
    assert (same_tier 12 50) as Ht by (unfold same_tier; lia).
    exists r1, r2. split; [exact H1|]. split; [exact H2|]. split; [exact Ht|].
    apply (Hmono sample_tier 1%positive 2%positive
             {[ "antallAnsatte" := VInt 12 ]} {[ "antallAnsatte" := VInt 50 ]}
             12 50 r1 r2);
      [reflexivity|reflexivity|reflexivity|reflexivity|lia|lia
      |exact Ht|exact H1|exact H2].
  - apply (Habs sample_heap 5%positive {[ "antallAnsatte" := VNone ]});
      [reflexivity | right; reflexivity].
Defined.

(** C10: on a non-negative integer count the estimate is an integer of at
    least 1000000, so it is not 0, and the sort key [get_revenue] reads
    from a record that carries it is not 0 either. *)
Theorem estimate_revenue_present_positive σ c (d : gmap string value) e :
  σ !! c = Some d → employees_of d = Some (VInt e) → 0 ≤ e →
  ∃ r, _estimate_revenue c σ = (Ok (VInt r), σ) ∧
       1000000 ≤ r ∧ r ≠ 0 ∧
       ∀ σ' c' (d' : gmap string value),
         σ' !! c' = Some d' → d' !! "estimated_revenue" = Some (VInt r) →
         get_revenue c' σ' = (Ok (VInt r), σ').
Proof.
  intros Hc He H0. eexists. split; [by apply (estimate_revenue_int _ _ _ _ Hc He)|].
  assert (1000000 ≤ if e =? 0 then 1000000
               else if e <=? 10 then e * 2000000
               else if e <=? 50 then e * 1500000
               else if e <=? 250 then e * 1200000
               else e * 1000000) as Hr.
  { destruct (Z.eqb_spec e 0); [lia|].
    destruct (Z.leb_spec e 10); [lia|].
    destruct (Z.leb_spec e 50); [lia|].
    destruct (Z.leb_spec e 250); lia. }
  split; [exact Hr|]. split; [lia|].
  intros σ' c' d' Hc' Hd'. unfold get_revenue.
  rewrite (bind_ok _ _ _ _ _ (dict_get_ok _ _ _ _ _ Hc')).
  by rewrite Hd'.
Qed.

Lemma estimate_revenue_present_positive_witness :
  ∃ r, _estimate_revenue 3%positive sample_heap = (Ok (VInt r), sample_heap) ∧
       1000000 ≤ r ∧ r ≠ 0 ∧
       ∀ σ' c' (d' : gmap string value),
         σ' !! c' = Some d' → d' !! "estimated_revenue" = Some (VInt r) →
         get_revenue c' σ' = (Ok (VInt r), σ').
Proof.
  apply (estimate_revenue_present_positive sample_heap 3%positive
           {[ "antallAnsatte" := VInt 11 ]} 11); [reflexivity|reflexivity|lia].
Defined.

Lemma classify_company_size_buckets_witness :
  ∃ s1 s2,
    _classify_company_size 2%positive sample_heap = (Ok s1, sample_heap) ∧
    _classify_company_size 3%positive sample_heap = (Ok s2, sample_heap) ∧
    in_bucket 10 s1 ∧ in_bucket 11 s2 ∧
    (size_rank s1 ≤ size_rank s2)%nat.
Proof.
  apply (classify_company_size_buckets sample_heap 2%positive 3%positive
           {[ "antallAnsatte" := VInt 10; "naeringskode1" := VRef 7%positive ]}
           {[ "antallAnsatte" := VInt 11 ]} 10 11);
    [reflexivity|reflexivity|reflexivity|reflexivity|lia|lia].
Defined.

(** *** The industry category *)

Lemma table_get_default table k dflt :
  k ∉ map fst table → table_get table k dflt = dflt.
Proof.
  induction table as [|[k' v] table IH]; simpl; [done|].
  intros Hk. destruct (String.eqb_spec k k') as [->|Hne].
  - exfalso. apply Hk. left.
  - apply IH. intros Hin. apply Hk. by right.
Qed.

Lemma industry_mapping_keys k :
  k ∈ map fst industry_mapping → String.length k = 2%nat.
Proof.
  intros Hk. apply list_elem_of_In in Hk. simpl in Hk.
  repeat (destruct Hk as [<- | Hk]; [reflexivity|]). destruct Hk.
Qed.

Lemma industry_mapping_no_unknown k v :
  (k, v) ∈ industry_mapping → v ≠ "unknown".
Proof.
  intros Hk. apply list_elem_of_In in Hk. simpl in Hk.
  repeat (destruct Hk as [[= <- <-] | Hk]; [discriminate|]). destruct Hk.
Qed.

Lemma substring_short s :
  (String.length s < 2)%nat → String.length (String.substring 0 2 s) ≠ 2%nat.
Proof.
  destruct s as [|a [|b s]]; simpl; lia.
Qed.

(* Keeps [simpl] from running the look-up in the table on an unknown key. *)
#[local] Arguments table_get : simpl never.

Lemma get_industry_category_code σ c (d : gmap string value) s :
  σ !! c = Some d → has_nace_code σ d s → s ≠ "" →
  _get_industry_category c σ =
    (Ok (table_get industry_mapping (String.substring 0 2 s) "other"), σ).
Proof.
  intros Hc (l & d' & Hd & Hl & Hk) Hs. unfold _get_industry_category.
  rewrite (bind_ok _ _ _ _ _ (dict_lookup_ok _ _ _ _ Hc)). rewrite Hd.
  unfold value_get.
  rewrite (bind_ok _ _ _ _ _ (dict_get_ok _ _ _ _ _ Hl)). rewrite Hk.
  run_M. rewrite bool_decide_eq_false_2 by done.
  destruct (Z.leb_spec 2 (Z.of_nat (String.length s))) as [Hn|Hn]; [done|].
  f_equal. f_equal.
  rewrite (table_get_default _ ""); [|by intros ?%industry_mapping_keys].
  rewrite table_get_default; [done|].
  intros ?%industry_mapping_keys. by apply (substring_short s); [lia|].
Qed.

Lemma get_industry_category_no_code σ c (d : gmap string value) :
  σ !! c = Some d → no_nace_code σ d →
  _get_industry_category c σ = (Ok "unknown", σ).
Proof.
  intros Hc Hno. unfold _get_industry_category.
  rewrite (bind_ok _ _ _ _ _ (dict_lookup_ok _ _ _ _ Hc)).
  destruct Hno as [-> | (l & d' & -> & Hl & Hk)]; [done|].
  unfold value_get.
  rewrite (bind_ok _ _ _ _ _ (dict_get_ok _ _ _ _ _ Hl)).
  by destruct Hk as [-> | [-> | ->]].
Qed.

(** C9: a record without an industry code is classified 'unknown'; a
    record with a non-empty code is classified by what the table gives for
    the first two characters of the code, and 'other' when the table has
    no entry for them; 'unknown' is no value of the table. *)
Theorem get_industry_category_prefix :
  (∀ σ c (d : gmap string value),
     σ !! c = Some d → no_nace_code σ d →
     _get_industry_category c σ = (Ok "unknown", σ)) ∧
  (∀ σ c (d : gmap string value) s,
     σ !! c = Some d → has_nace_code σ d s → s ≠ "" →
     _get_industry_category c σ =
       (Ok (table_get industry_mapping (String.substring 0 2 s) "other"), σ) ∧
     (String.substring 0 2 s ∉ map fst industry_mapping →
      _get_industry_category c σ = (Ok "other", σ))) ∧
  (∀ k v, (k, v) ∈ industry_mapping → v ≠ "unknown").
Proof.
  split; [|split].
  - intros σ c d Hc Hno. by apply (get_industry_category_no_code _ _ d).
  - intros σ c d s Hc Hcode Hs.
    rewrite (get_industry_category_code _ _ _ _ Hc Hcode Hs).
    split; [done|]. intros Hk. by rewrite table_get_default.
  - apply industry_mapping_no_unknown.
Qed.

Lemma get_industry_category_prefix_witness :
  _get_industry_category 1%positive sample_heap = (Ok "unknown", sample_heap) ∧
  _get_industry_category 2%positive sample_heap = (Ok "information", sample_heap).
Proof.
  destruct get_industry_category_prefix as (Hno & Hcode & _).
  split.
  - apply (Hno sample_heap 1%positive
             {[ "navn" := VStr "Nordic Kraft AS";
                "organisasjonsnummer" := VStr "900000000";
                "antallAnsatte" := VInt 120 ]}); [reflexivity|].
    left. reflexivity.
  - apply (Hcode sample_heap 2%positive
             {[ "antallAnsatte" := VInt 10; "naeringskode1" := VRef 7%positive ]}
             "62.010"); [reflexivity| |discriminate].
    exists 7%positive, {[ "kode" := VStr "62.010" ]}.
    split; [reflexivity|]. split; reflexivity.
Defined.

(** *** The filter *)

Lemma filter_loop_typed σ min_employees companies filtered :
  Forall (λ c, ∃ d : gmap string value, σ !! c = Some d ∧ employees_typed d)
    companies →
  filter_loop companies min_employees filtered σ =
    (Ok (filtered ++ List.filter (large_enough σ min_employees) companies)%list, σ).
Proof.
  intros Hall. revert filtered.
  induction Hall as [|c companies (d & Hc & Ht) _ IH]; intros filtered; simpl.
  - by rewrite app_nil_r.
  - rewrite (bind_ok _ _ _ _ _ (dict_get_ok _ _ _ _ _ Hc)).
    unfold large_enough at 1. rewrite Hc.
    unfold employees_typed, employees_absent, employees_of in *.
    destruct Ht as [[-> | ->] | [e ->]]; simpl; run_M.
    + apply IH.
    + apply IH.
    + rewrite IH. replace (e >=? min_employees) with (min_employees <=? e)
        by (rewrite Z.geb_leb; done).
      destruct (min_employees <=? e); [|done].
      by rewrite <- app_assoc.
Qed.

(** C6: on records whose employee count is missing, [None] or an integer,
    the filter returns, in their order, exactly the records whose count
    is present and at least [min_employees]; a record without a count is
    dropped whatever the threshold is, 0 included. *)
Theorem filter_large_companies_exact σ companies min_employees :
  Forall (λ c, ∃ d : gmap string value, σ !! c = Some d ∧ employees_typed d)
    companies →
  filter_large_companies companies min_employees σ =
    (Ok (List.filter (large_enough σ min_employees) companies), σ) ∧
  (∀ c, In c (List.filter (large_enough σ min_employees) companies) ↔
        In c companies ∧
        ∃ (d : gmap string value) e,
          σ !! c = Some d ∧ employees_of d = Some (VInt e) ∧
          min_employees ≤ e) ∧
  (∀ c (d : gmap string value),
     σ !! c = Some d → employees_absent d →
     ¬ In c (List.filter (large_enough σ min_employees) companies)).
Proof.
  intros Hall. split; [|split].
  - unfold filter_large_companies. by rewrite filter_loop_typed.
  - intros c. rewrite filter_In. unfold large_enough. split.
    + intros [Hin Hk]. split; [done|].
      destruct (σ !! c) as [d|]; [|done].
      destruct (employees_of d) as [[| e | |]|] eqn:He; try done.
      exists d, e. split; [done|]. split; [done|]. by apply Z.leb_le.
    + intros [Hin (d & e & -> & -> & Hle)]. split; [done|]. by apply Z.leb_le.
  - intros c d Hc Ha. rewrite filter_In. unfold large_enough. rewrite Hc.
    unfold employees_absent in Ha. by destruct Ha as [-> | ->]; intros [_ ?].
Qed.

Lemma filter_large_companies_exact_witness :
  filter_large_companies [1; 5; 4; 3; 2; 1]%positive 0 sample_heap =
    (Ok [1; 3; 2; 1]%positive, sample_heap) ∧
  ¬ In 5%positive
      (List.filter (large_enough sample_heap 0) [1; 5; 4; 3; 2; 1]%positive).
Proof.
  assert (Forall (λ c, ∃ d : gmap string value,
            sample_heap !! c = Some d ∧ employees_typed d)
            [1; 5; 4; 3; 2; 1]%positive) as Hall.
  { repeat apply Forall_cons_2; try apply Forall_nil_2;
      eexists; (split; [reflexivity|]);
      first [ by right; eexists | by left; left | by left; right ]. }
  destruct (filter_large_companies_exact sample_heap
              [1; 5; 4; 3; 2; 1]%positive 0 Hall) as (Hrun & _ & Habs).
  split; [exact Hrun|].
  apply (Habs 5%positive {[ "antallAnsatte" := VNone ]});
    [reflexivity | by right].
Defined.

(** *** Readers leave the heap alone *)

Lemma reader_ret {A} (a : A) : reader (mret a).
Proof. by intros σ. Qed.

Lemma reader_lift {A} (r : result A) : reader (lift r).
Proof. by intros σ. Qed.

Lemma reader_raise {A} e : reader (@raise A e).
Proof. by intros σ. Qed.

Lemma reader_bind {A B} (m : M A) (f : A → M B) :
  reader m → (∀ a, reader (f a)) → reader (m ≫= f).
Proof.
  intros Hm Hf σ. unfold mbind, M_bind.
  specialize (Hm σ). destruct (m σ) as [[a|e] σ']; simpl in *; subst.
  - apply Hf.
  - done.
Qed.

Lemma reader_dict_get l k dflt : reader (dict_get l k dflt).
Proof. intros σ. unfold dict_get. by destruct (σ !! l). Qed.

Lemma reader_dict_lookup l k : reader (dict_lookup l k).
Proof. intros σ. unfold dict_lookup. by destruct (σ !! l). Qed.

Lemma reader_value_get v k dflt : reader (value_get v k dflt).
Proof.
  destruct v; simpl; try apply reader_raise. apply reader_dict_get.
Qed.

Lemma reader_py_not v : reader (py_not v).
Proof.
  destruct v; simpl; try apply reader_ret.
  intros σ. by destruct (σ !! l).
Qed.

Lemma reader_py_len v : reader (py_len v).
Proof.
  destruct v; simpl; try apply reader_ret; try apply reader_raise.
  intros σ. by destruct (σ !! l).
Qed.

Lemma reader_py_slice_to v n : reader (py_slice_to v n).
Proof.
  destruct v; simpl; try apply reader_ret; apply reader_raise.
Qed.

Create HintDb readers.
#[local] Hint Resolve reader_ret reader_lift reader_raise reader_dict_get
  reader_dict_lookup reader_value_get reader_py_not reader_py_len
  reader_py_slice_to : readers.

(** Splits a computation at its binds and branches. *)
Ltac reader_steps :=
  repeat first
    [ apply reader_bind; [|intros ?]
    | match goal with
      | |- reader (if ?b then _ else _) => destruct b
      | |- reader (match ?o with Some _ => _ | None => _ end) => destruct o
      end
    | solve [auto with readers] ].

Lemma reader_estimate_revenue c : reader (_estimate_revenue c).
Proof. unfold _estimate_revenue. reader_steps. Qed.

Lemma reader_classify_company_size c : reader (_classify_company_size c).
Proof. unfold _classify_company_size. reader_steps. Qed.

Lemma reader_get_industry_category c : reader (_get_industry_category c).
Proof. unfold _get_industry_category. reader_steps. Qed.

Lemma reader_run {A} (m : M A) σ : reader m → m σ = ((m σ).1, σ).
Proof. intros H. rewrite <- (H σ) at 3. by destruct (m σ). Qed.

(** *** Enrichment *)

Lemma dict_setitem_ok σ l (d : gmap string value) k v :
  σ !! l = Some d → dict_setitem l k v σ = (Ok tt, <[l := <[k := v]> d]> σ).
Proof. intros H. unfold dict_setitem. by rewrite H. Qed.

(** The run of [enrich_company_data] on a record in the heap: the copy is
    allocated at a fresh address and then updated three times; the readers
    see the heaps in between. *)
Lemma enrich_company_data_run σ c (d : gmap string value) :
  σ !! c = Some d →
  let c' := fresh (dom σ) in
  let σ1 := <[c' := d]> σ in
  enrich_company_data c σ =
    match (_estimate_revenue c σ1).1 with
    | Raise e => (Raise e, σ1)
    | Ok revenue =>
        let d1 := <["estimated_revenue" := revenue]> d in
        let σ2 := <[c' := d1]> σ1 in
        match (_classify_company_size c σ2).1 with
        | Raise e => (Raise e, σ2)
        | Ok size =>
            let d2 := <["size_category" := VStr size]> d1 in
            let σ3 := <[c' := d2]> σ2 in
            match (_get_industry_category c σ3).1 with
            | Raise e => (Raise e, σ3)
            | Ok industry =>
                (Ok c', <[c' := <["industry_category" := VStr industry]> d2]> σ3)
            end
        end
    end.
Proof.
  intros Hc c' σ1. unfold enrich_company_data.
  assert (dict_copy c σ = (Ok c', σ1)) as Hcopy.
  { unfold dict_copy. by rewrite Hc. }
  rewrite (bind_ok _ _ _ _ _ Hcopy).
  unfold mbind at 1, M_bind at 1.
  rewrite (reader_run _ σ1 (reader_estimate_revenue c)).
  destruct (_estimate_revenue c σ1).1 as [revenue|e]; [|done].
  assert (σ1 !! c' = Some d) as H1 by apply lookup_insert_eq.
  rewrite (bind_ok _ _ _ _ _ (dict_setitem_ok _ _ _ _ _ H1)).
  simpl. set (d1 := <["estimated_revenue" := revenue]> d).
  set (σ2 := <[c' := d1]> σ1).
  unfold mbind at 1, M_bind at 1.
  rewrite (reader_run _ σ2 (reader_classify_company_size c)).
  destruct (_classify_company_size c σ2).1 as [size|e]; [|done].
  assert (σ2 !! c' = Some d1) as H2 by apply lookup_insert_eq.
  rewrite (bind_ok _ _ _ _ _ (dict_setitem_ok _ _ _ _ _ H2)).
  simpl. set (d2 := <["size_category" := VStr size]> d1).
  set (σ3 := <[c' := d2]> σ2).
  unfold mbind at 1, M_bind at 1.
  rewrite (reader_run _ σ3 (reader_get_industry_category c)).
  destruct (_get_industry_category c σ3).1 as [industry|e]; [|done].
  assert (σ3 !! c' = Some d2) as H3 by apply lookup_insert_eq.
  by rewrite (bind_ok _ _ _ _ _ (dict_setitem_ok _ _ _ _ _ H3)).
Qed.

Lemma fresh_not_allocated (σ : gmap loc (gmap string value)) l :
  l ∈ dom σ → l ≠ fresh (dom σ).
Proof. intros Hl ->. by apply (is_fresh (dom σ)). Qed.

Lemma classify_company_size_missing σ c (d : gmap string value) :
  σ !! c = Some d → employees_of d = None →
  _classify_company_size c σ = (Ok "micro", σ).
Proof.
  intros Hc He. unfold _classify_company_size.
  rewrite (bind_ok _ _ _ _ _ (dict_get_ok _ _ _ _ _ Hc)).
  unfold employees_of in He. by rewrite He.
Qed.

(** What the three readers return on a well-formed record does not depend
    on the rest of the heap. *)
Lemma readers_typed σ c (d : gmap string value) :
  σ !! c = Some d → employees_missing_or_int d → industry_code_typed σ d →
  ∃ revenue size industry,
    (∀ τ : gmap loc (gmap string value),
       τ !! c = Some d → (∀ l, l ∈ dom σ → τ !! l = σ !! l) →
       _estimate_revenue c τ = (Ok revenue, τ) ∧
       _classify_company_size c τ = (Ok size, τ) ∧
       _get_industry_category c τ = (Ok industry, τ)) ∧
    (employees_of d = None → revenue = VNone ∧ size = "micro").
Proof.
  intros Hc He Hi.
  assert (∃ industry, ∀ τ : gmap loc (gmap string value),
            τ !! c = Some d → (∀ l, l ∈ dom σ → τ !! l = σ !! l) →
            _get_industry_category c τ = (Ok industry, τ))
    as [industry Hind].
  { destruct Hi as [Hno | [s (l & d' & Hd & Hl & Hk)]].
    - exists "unknown". intros τ Hτ Hagree.
      apply (get_industry_category_no_code τ c d Hτ).
      destruct Hno as [Hno | (l & d' & Hd & Hl & Hk)]; [by left|].
      right. exists l, d'. split; [done|]. split; [|done].
      rewrite Hagree; [done|]. apply elem_of_dom. by rewrite Hl.
    - assert (∀ τ : gmap loc (gmap string value),
                (∀ l, l ∈ dom σ → τ !! l = σ !! l) → τ !! l = Some d')
        as Hτl.
      { intros τ Hagree. rewrite Hagree; [done|].
        apply elem_of_dom. by rewrite Hl. }
      destruct (decide (s = "")) as [-> | Hs].
      + exists "unknown". intros τ Hτ Hagree.
        apply (get_industry_category_no_code τ c d Hτ).
        right. exists l, d'. auto 6.
      + eexists. intros τ Hτ Hagree.
        apply (get_industry_category_code τ c d s Hτ); [|done].
        exists l, d'. auto. }
  destruct He as [He | [e He]].
  - exists VNone, "micro", industry. split; [|done].
    intros τ Hτ Hagree. split; [|split].
    + apply (estimate_revenue_absent τ c d Hτ). by left.
    + by apply (classify_company_size_missing τ c d).
    + by apply Hind.
  - eexists _, _, industry. split.
    + intros τ Hτ Hagree. split; [|split].
      * by apply (estimate_revenue_int τ c d e).
      * by apply (classify_company_size_int τ c d e).
      * by apply Hind.
    + intros Hnone. congruence.
Qed.

(** On a well-formed record enrichment returns: the new record sits at a
    fresh address and holds the items of the input and the three derived
    values that the readers give on the input. *)
Lemma enrich_company_data_typed σ c (d : gmap string value) :
  σ !! c = Some d → employees_missing_or_int d → industry_code_typed σ d →
  ∃ revenue size industry,
    _estimate_revenue c σ = (Ok revenue, σ) ∧
    _classify_company_size c σ = (Ok size, σ) ∧
    _get_industry_category c σ = (Ok industry, σ) ∧
    enrich_company_data c σ =
      (Ok (fresh (dom σ)),
       <[fresh (dom σ) := enriched_record d revenue size industry]> σ) ∧
    (employees_of d = None → revenue = VNone ∧ size = "micro").
Proof.
  intros Hc He Hi.
  destruct (readers_typed σ c d Hc He Hi)
    as (revenue & size & industry & Hrun & Hmissing).
  exists revenue, size, industry.
  destruct (Hrun σ Hc ltac:(done)) as (H1 & H2 & H3).
  do 3 (split; [done|]). split; [|done].
  assert (c ≠ fresh (dom σ)) as Hne.
  { apply fresh_not_allocated, elem_of_dom. by rewrite Hc. }
  assert (∀ (τ : gmap loc (gmap string value)) d0,
            (∀ l, l ∈ dom σ → τ !! l = σ !! l) →
            ∀ l, l ∈ dom σ → <[fresh (dom σ) := d0]> τ !! l = σ !! l)
    as Hstep.
  { intros τ d0 Hagree l Hl. rewrite lookup_insert_ne; [by apply Hagree|].
    intros <-. by apply (is_fresh (dom σ)). }
  rewrite (enrich_company_data_run σ c d Hc). cbv zeta.
  set (c' := fresh (dom σ)) in *.
  set (σ1 := <[c' := d]> σ).
  assert (∀ l, l ∈ dom σ → σ1 !! l = σ !! l) as A1 by (by apply Hstep).
  destruct (Hrun σ1) as (-> & _ & _); [by rewrite A1; [|apply elem_of_dom; rewrite Hc]|done|].
  simpl. set (σ2 := <[c' := _]> σ1).
  assert (∀ l, l ∈ dom σ → σ2 !! l = σ !! l) as A2 by (by apply Hstep).
  destruct (Hrun σ2) as (_ & -> & _); [by rewrite A2; [|apply elem_of_dom; rewrite Hc]|done|].
  simpl. set (σ3 := <[c' := _]> σ2).
  assert (∀ l, l ∈ dom σ → σ3 !! l = σ !! l) as A3 by (by apply Hstep).
  destruct (Hrun σ3) as (_ & _ & ->); [by rewrite A3; [|apply elem_of_dom; rewrite Hc]|done|].
  simpl. f_equal. unfold σ3, σ2, σ1.
  by rewrite !insert_insert_eq.
Qed.

Lemma not_derived_key k :
  k ∉ derived_keys →
  "estimated_revenue" ≠ k ∧ "size_category" ≠ k ∧ "industry_category" ≠ k.
Proof.
  unfold derived_keys. rewrite !not_elem_of_cons. intuition congruence.
Qed.

Lemma derived_key_cases k :
  k ∈ derived_keys ↔
  k = "estimated_revenue" ∨ k = "size_category" ∨ k = "industry_category".
Proof.
  unfold derived_keys. rewrite !elem_of_cons, elem_of_nil. tauto.
Qed.

(** Whatever the readers do, enrichment writes at the fresh address only. *)
Lemma enrich_company_data_outcome σ c (d : gmap string value) r σ' :
  σ !! c = Some d → enrich_company_data c σ = (r, σ') →
  (∀ l, l ≠ fresh (dom σ) → σ' !! l = σ !! l) ∧
  (∀ c', r = Ok c' →
     c' = fresh (dom σ) ∧
     ∃ revenue size industry,
       σ' !! c' = Some (enriched_record d revenue size industry)).
Proof.
  intros Hc. rewrite (enrich_company_data_run σ c d Hc). cbv zeta.
  destruct (_estimate_revenue c _).1 as [revenue|e1].
  2:{ intros [= <- <-]. split; [|done].
      intros l Hl. by rewrite lookup_insert_ne. }
  destruct (_classify_company_size c _).1 as [size|e2].
  2:{ intros [= <- <-]. split; [|done].
      intros l Hl. by rewrite !lookup_insert_ne. }
  destruct (_get_industry_category c _).1 as [industry|e3].
  2:{ intros [= <- <-]. split; [|done].
      intros l Hl. by rewrite !lookup_insert_ne. }
  intros [= <- <-]. split.
  - intros l Hl. by rewrite !lookup_insert_ne.
  - intros c' [= <-]. split; [done|].
    exists revenue, size, industry. by rewrite lookup_insert_eq.
Qed.

(** C3, as amended: on a record whose employee count is missing or an
    integer and whose industry code is missing, [None] or a string,
    enrichment returns a classified record; a missing employee count gives
    the estimate [None] and the size category 'micro'. *)
Theorem enrich_company_data_returns σ c (d : gmap string value) :
  σ !! c = Some d → employees_missing_or_int d → industry_code_typed σ d →
  ∃ c' σ' (d' : gmap string value),
    enrich_company_data c σ = (Ok c', σ') ∧ σ' !! c' = Some d' ∧
    is_Some (d' !! "estimated_revenue") ∧
    is_Some (d' !! "size_category") ∧
    is_Some (d' !! "industry_category") ∧
    (employees_of d = None →
     d' !! "estimated_revenue" = Some VNone ∧
     d' !! "size_category" = Some (VStr "micro")).
Proof.
  intros Hc He Hi.
  destruct (enrich_company_data_typed σ c d Hc He Hi)
    as (revenue & size & industry & _ & _ & _ & Hrun & Hmissing).
  eexists _, _, _. split; [exact Hrun|].
  split; [apply lookup_insert_eq|].
  unfold enriched_record. split; [by simplify_map_eq|].
  split; [by simplify_map_eq|]. split; [by simplify_map_eq|].
  intros Hnone. destruct (Hmissing Hnone) as [-> ->]. by simplify_map_eq.
Qed.

Lemma enrich_company_data_returns_witness :
  ∃ c' σ' (d' : gmap string value),
    enrich_company_data 4%positive sample_heap = (Ok c', σ') ∧
    σ' !! c' = Some d' ∧
    is_Some (d' !! "estimated_revenue") ∧
    is_Some (d' !! "size_category") ∧
    is_Some (d' !! "industry_category") ∧
    (employees_of {[ "navn" := VStr "Uten Ansatte" ]} = None →
     d' !! "estimated_revenue" = Some VNone ∧
     d' !! "size_category" = Some (VStr "micro")).
Proof.
  apply (enrich_company_data_returns sample_heap 4%positive
           {[ "navn" := VStr "Uten Ansatte" ]});
    [reflexivity | by left | by left; left].
Defined.

(** A record whose employee count is [None], and one whose count is the
    string "12": on both enrichment raises [TypeError]. *)
Lemma enrich_company_data_raises :
  (enrich_company_data 5%positive sample_heap).1 = Raise TypeError ∧
  (enrich_company_data 6%positive sample_heap).1 = Raise TypeError.
Proof. split; vm_compute; reflexivity. Qed.

(** C8: enrichment changes no object that is already in the heap, so the
    input record keeps all its items; the record it returns is a new
    object that agrees with the input on every key other than the three
    derived ones and has the three derived items; when the input has none
    of the three it is contained in the output, whose keys are those of
    the input and the three derived ones.  On a well-formed record
    enrichment does return, with the derived values the readers give on
    the input. *)
Theorem enrich_company_data_frame σ c (d : gmap string value) r σ' :
  σ !! c = Some d → enrich_company_data c σ = (r, σ') →
  (∀ l, l ∈ dom σ → σ' !! l = σ !! l) ∧
  σ' !! c = Some d ∧
  (∀ c', r = Ok c' →
     (c' ∉ dom σ) ∧ c' ≠ c ∧
     ∃ d' : gmap string value,
       σ' !! c' = Some d' ∧
       (∀ k, k ∉ derived_keys → d' !! k = d !! k) ∧
       (∀ k, k ∈ derived_keys → is_Some (d' !! k)) ∧
       ((∀ k, k ∈ derived_keys → d !! k = None) →
        d ⊆ d' ∧ dom d' = dom d ∪ list_to_set derived_keys)) ∧
  (employees_missing_or_int d → industry_code_typed σ d →
   ∃ revenue size industry,
     _estimate_revenue c σ = (Ok revenue, σ) ∧
     _classify_company_size c σ = (Ok size, σ) ∧
     _get_industry_category c σ = (Ok industry, σ) ∧
     r = Ok (fresh (dom σ)) ∧
     σ' !! fresh (dom σ) = Some (enriched_record d revenue size industry)).
Proof.
  intros Hc Hrun.
  destruct (enrich_company_data_outcome σ c d r σ' Hc Hrun) as [Hframe Hnew].
  assert (c ∈ dom σ) as Hdom by (apply elem_of_dom; by rewrite Hc).
  split; [|split; [|split]].
  - intros l Hl. by apply Hframe, fresh_not_allocated.
  - rewrite Hframe; [done|]. by apply fresh_not_allocated.
  - intros c' Hr. destruct (Hnew c' Hr) as (-> & revenue & size & industry & Hd').
    split; [apply is_fresh|]. split.
    { intros Heq. by apply (fresh_not_allocated σ c). }
    eexists. split; [exact Hd'|]. unfold enriched_record.
    split; [|split].
    + intros k Hk. destruct (not_derived_key k Hk) as (? & ? & ?).
      by rewrite !lookup_insert_ne.
    + intros k Hk.
      destruct (proj1 (derived_key_cases k) Hk) as [-> | [-> | ->]];
        by simplify_map_eq.
    + intros Hnone.
      assert (d !! "estimated_revenue" = None) as N1
        by (apply Hnone, derived_key_cases; auto).
      assert (d !! "size_category" = None) as N2
        by (apply Hnone, derived_key_cases; auto).
      assert (d !! "industry_category" = None) as N3
        by (apply Hnone, derived_key_cases; auto).
      split.
      * transitivity (<["estimated_revenue" := revenue]> d);
          [by apply insert_subseteq|].
        transitivity (<["size_category" := VStr size]>
                        (<["estimated_revenue" := revenue]> d));
          [apply insert_subseteq; by rewrite lookup_insert_ne|].
        apply insert_subseteq. by rewrite !lookup_insert_ne.
      * rewrite !dom_insert_L. unfold derived_keys. simpl.
        rewrite (right_id_L ∅ (∪)).
        rewrite (comm_L (∪) (dom d)).
        rewrite !(assoc_L (∪)).
        by rewrite (comm_L (∪) {["estimated_revenue"]} {["size_category"]}),
          (comm_L (∪) _ {["industry_category"]}), !(assoc_L (∪)).
  - intros He Hi.
    destruct (enrich_company_data_typed σ c d Hc He Hi)
      as (revenue & size & industry & H1 & H2 & H3 & Hrun' & _).
    exists revenue, size, industry. do 3 (split; [done|]).
    rewrite Hrun' in Hrun. injection Hrun as <- <-.
    split; [done|]. apply lookup_insert_eq.
Qed.

Lemma enrich_company_data_frame_witness :
  ∃ r σ',
    enrich_company_data 2%positive sample_heap = (r, σ') ∧
    (∀ l, l ∈ dom sample_heap → σ' !! l = sample_heap !! l) ∧
    r = Ok (fresh (dom sample_heap)) ∧
    σ' !! fresh (dom sample_heap) =
      Some (enriched_record
              {[ "antallAnsatte" := VInt 10; "naeringskode1" := VRef 7%positive ]}
              (VInt 20000000) "small" "information").
Proof.
  destruct (enrich_company_data 2%positive sample_heap) as [r σ'] eqn:Hrun.
  destruct (enrich_company_data_frame sample_heap 2%positive
              {[ "antallAnsatte" := VInt 10; "naeringskode1" := VRef 7%positive ]}
              r σ' eq_refl Hrun) as (Hframe & _ & _ & Htyped).
  exists r, σ'. split; [done|]. split; [exact Hframe|].
  destruct Htyped as (revenue & size & industry & H1 & H2 & H3 & Hr & Hd').
  - right. by exists 10.
  - right. exists "62.010", 7%positive, {[ "kode" := VStr "62.010" ]}. done.
  - split; [exact Hr|]. rewrite Hd'.
    vm_compute in H1. vm_compute in H2. vm_compute in H3.
    injection H1 as <-. injection H2 as <-. injection H3 as <-. done.
Defined.

(** *** Sorting *)

Section StableInsertion.
Context {A : Type} (k : A → Z).

Abbreviation ascending := (StronglySorted (λ a b : A, k a ≤ k b)).

Lemma insert_by_lt_keyed x ys :
  insert_by_lt (keyed k x) (map (keyed k) ys) =
    Ok (map (keyed k) (insert_stable k x ys)).
Proof.
  induction ys as [|y ys IH]; simpl; [done|].
  destruct (k x <? k y); [done|]. by rewrite IH.
Qed.

Lemma sort_ascending_keyed placed todo :
  sort_ascending (map (keyed k) placed) (map (keyed k) todo) =
    Ok (map (keyed k) (insertion_sort k placed todo)).
Proof.
  revert placed. induction todo as [|x todo IH]; intros placed; simpl; [done|].
  rewrite insert_by_lt_keyed. apply IH.
Qed.

Lemma insert_stable_perm x ys : Permutation (insert_stable k x ys) (x :: ys).
Proof.
  induction ys as [|y ys IH]; simpl; [done|].
  destruct (k x <? k y); [done|].
  rewrite IH. apply perm_swap.
Qed.

Lemma insertion_sort_perm placed todo :
  Permutation (insertion_sort k placed todo) (placed ++ todo).
Proof.
  revert placed. induction todo as [|x todo IH]; intros placed; simpl.
  - by rewrite app_nil_r.
  - rewrite IH, insert_stable_perm. simpl. apply Permutation_middle.
Qed.

Lemma insert_stable_ascending x ys :
  ascending ys → ascending (insert_stable k x ys).
Proof.
  induction 1 as [|y ys Hs IH Hy]; simpl.
  - repeat constructor.
  - destruct (Z.ltb_spec (k x) (k y)) as [Hlt|Hge].
    + constructor; [by constructor|].
      constructor; [lia|]. eapply Forall_impl; [exact Hy|].
      simpl. intros z Hz. lia.
    + constructor; [done|].
      rewrite insert_stable_perm. by constructor.
Qed.

Lemma insertion_sort_ascending placed todo :
  ascending placed → ascending (insertion_sort k placed todo).
Proof.
  revert placed. induction todo as [|x todo IH]; intros placed Hp; simpl.
  - done.
  - by apply IH, insert_stable_ascending.
Qed.

Lemma filter_none (f : A → bool) l :
  Forall (λ z, f z = false) l → List.filter f l = [].
Proof. induction 1 as [|z l Hz _ IH]; simpl; [done|]. by rewrite Hz. Qed.

(** An item goes behind the items of its own key. *)
Lemma insert_stable_with_key v x ys :
  ascending ys →
  with_key k v (insert_stable k x ys) =
    (with_key k v ys ++ with_key k v [x])%list.
Proof.
  unfold with_key. induction 1 as [|y ys Hs IH Hy]; simpl; [done|].
  destruct (Z.ltb_spec (k x) (k y)) as [Hlt|Hge]; simpl.
  - destruct (Z.eqb_spec (k x) v) as [Hx|Hx]; [|by rewrite app_nil_r].
    destruct (Z.eqb_spec (k y) v) as [Hy'|_]; [lia|].
    assert (List.filter (λ z, k z =? v) ys = []) as ->; [|done].
    apply filter_none. eapply Forall_impl; [exact Hy|].
    simpl. intros z Hz. apply Z.eqb_neq. lia.
  - rewrite IH. by destruct (k y =? v).
Qed.

Lemma insertion_sort_with_key v placed todo :
  ascending placed →
  with_key k v (insertion_sort k placed todo) =
    (with_key k v placed ++ with_key k v todo)%list.
Proof.
  revert placed. induction todo as [|x todo IH]; intros placed Hp; simpl.
  - unfold with_key. simpl. by rewrite app_nil_r.
  - rewrite IH by (by apply insert_stable_ascending).
    rewrite insert_stable_with_key by done.
    rewrite <- app_assoc. f_equal.
    unfold with_key. simpl. by destruct (k x =? v).
Qed.

Lemma ascending_rev l :
  ascending l → StronglySorted (λ a b : A, k b ≤ k a) (rev l).
Proof.
  induction 1 as [|x l Hs IH Hx]; simpl; [constructor|].
  apply StronglySorted_app_2; [|done|repeat constructor].
  intros a b Ha Hb. apply list_elem_of_singleton in Hb as ->.
  rewrite Forall_forall in Hx. apply Hx.
  apply list_elem_of_In, in_rev, list_elem_of_In. exact Ha.
Qed.

Lemma sorted_descending_spec xs :
  Permutation (sorted_descending k xs) xs ∧
  StronglySorted (λ a b : A, k b ≤ k a) (sorted_descending k xs) ∧
  ∀ v, with_key k v (sorted_descending k xs) = with_key k v xs.
Proof.
  unfold sorted_descending. split; [|split].
  - rewrite <- Permutation_rev, insertion_sort_perm. simpl.
    by rewrite <- Permutation_rev.
  - apply ascending_rev, insertion_sort_ascending. constructor.
  - intros v. unfold with_key at 1. rewrite filter_rev.
    fold (with_key k v (insertion_sort k [] (rev xs))).
    rewrite insertion_sort_with_key by constructor.
    unfold with_key. simpl. by rewrite filter_rev, rev_involutive.
Qed.

End StableInsertion.

Lemma get_revenue_typed σ c (d : gmap string value) :
  σ !! c = Some d → revenue_typed d →
  get_revenue c σ = (Ok (VInt (revenue_key σ c)), σ).
Proof.
  intros Hc Ht. unfold get_revenue, revenue_key.
  rewrite (bind_ok _ _ _ _ _ (dict_get_ok _ _ _ _ _ Hc)). rewrite Hc.
  by destruct Ht as [-> | [-> | [r ->]]].
Qed.

Lemma map_keys_typed σ companies :
  Forall (λ c, ∃ d : gmap string value, σ !! c = Some d ∧ revenue_typed d)
    companies →
  map_keys get_revenue companies σ =
    (Ok (map (keyed (revenue_key σ)) companies), σ).
Proof.
  induction 1 as [|c companies (d & Hc & Ht) _ IH]; simpl; [done|].
  rewrite (bind_ok _ _ _ _ _ (get_revenue_typed σ c d Hc Ht)).
  by rewrite (bind_ok _ _ _ _ _ IH).
Qed.

Lemma sort_by_revenue_estimate_typed σ companies :
  Forall (λ c, ∃ d : gmap string value, σ !! c = Some d ∧ revenue_typed d)
    companies →
  sort_by_revenue_estimate companies σ =
    (Ok (sorted_descending (revenue_key σ) companies), σ).
Proof.
  intros Hall. unfold sort_by_revenue_estimate, sorted.
  rewrite (bind_ok _ _ _ _ _ (map_keys_typed σ companies Hall)).
  rewrite <- map_rev.
  change (@nil (value * loc)) with (map (keyed (revenue_key σ)) []).
  rewrite sort_ascending_keyed. run_M.
  rewrite <- map_rev, map_map. simpl. by rewrite map_id.
Qed.

Lemma revenue_absent_key σ c : revenue_absent σ c → revenue_key σ c = 0.
Proof.
  intros (d & Hc & Hd). unfold revenue_key. rewrite Hc.
  by destruct Hd as [-> | ->].
Qed.

(** C5: on records whose estimate is missing, [None] or an integer the
    sort returns a rearrangement of its input, ordered by falling key,
    where the key is the estimate and 0 for a record without one; records
    of equal key (two records without an estimate among them) keep their
    order; the heap is left as it was, so a record without an estimate is
    still without one in the output. *)
Theorem sort_by_revenue_estimate_stable σ companies :
  Forall (λ c, ∃ d : gmap string value, σ !! c = Some d ∧ revenue_typed d)
    companies →
  ∃ out σ',
    sort_by_revenue_estimate companies σ = (Ok out, σ') ∧
    σ' = σ ∧
    Permutation out companies ∧
    StronglySorted (λ a b, revenue_key σ b ≤ revenue_key σ a) out ∧
    (∀ v, with_key (revenue_key σ) v out =
          with_key (revenue_key σ) v companies) ∧
    (∀ c, In c out → revenue_absent σ c →
          revenue_absent σ' c ∧ revenue_key σ c = 0).
Proof.
  intros Hall. eexists _, _.
  split; [by apply sort_by_revenue_estimate_typed|]. split; [done|].
  destruct (sorted_descending_spec (revenue_key σ) companies)
    as (Hperm & Hsorted & Hstable).
  do 3 (split; [done|]).
  intros c _ Habs. split; [done|]. by apply revenue_absent_key.
Qed.

Lemma sort_by_revenue_estimate_stable_witness :
  ∃ out σ',
    sort_by_revenue_estimate [1; 2; 3; 4; 5]%positive sample_ranking =
      (Ok out, σ') ∧
    out = [3; 1; 4; 2; 5]%positive ∧
    σ' = sample_ranking ∧
    with_key (revenue_key sample_ranking) 0 out = [2; 5]%positive ∧
    revenue_absent σ' 2%positive.
Proof.
  assert (Forall (λ c, ∃ d : gmap string value,
            sample_ranking !! c = Some d ∧ revenue_typed d)
            [1; 2; 3; 4; 5]%positive) as Hall.
  { repeat apply Forall_cons_2; try apply Forall_nil_2;
      eexists; (split; [reflexivity|]);
      first [ by left | by right; left | by right; right; eexists ]. }
  destruct (sort_by_revenue_estimate_stable sample_ranking
              [1; 2; 3; 4; 5]%positive Hall)
    as (out & σ' & Hrun & -> & _ & _ & Hstable & Habs).
  exists out, sample_ranking. split; [exact Hrun|].
  assert (out = [3; 1; 4; 2; 5]%positive) as ->.
  { vm_compute in Hrun. by injection Hrun as <-. }
  split; [done|]. split; [done|]. split; [apply (Hstable 0)|].
  apply (Habs 2%positive); [simpl; tauto|].
  exists {[ "navn" := VStr "B"; "estimated_revenue" := VNone ]}.
  split; [reflexivity | by right].
Defined.

(** ** DomainFinder *)

Import DomainFinder.

(** *** Candidate generation *)

(** C2, as amended: the empty name gives no candidate; for "Statoil ASA"
    the candidates include "statoil.no", which the guesses from the
    cleaned name give once the ending "asa" is stripped, and they include
    "statoilasa.no" as well, which the word patterns give as the first two
    words put together; only the guesses from the cleaned name leave it
    out.  The guesses are the four endings behind "statoil", and the
    candidates are these and the four that the word patterns add. *)
Theorem candidate_domains_statoil U org_number :
  candidate_domains U "" org_number = ∅ ∧
  "statoil.no" ∈ candidate_domains U "Statoil ASA" org_number ∧
  "statoilasa.no" ∈ candidate_domains U "Statoil ASA" org_number ∧
  ("statoilasa.no" ∉ _guess_domains_from_name U "Statoil ASA") ∧
  "statoilasa.no" ∈ _search_common_patterns U "Statoil ASA" ∧
  "statoil.no" ∈ _guess_domains_from_name U "Statoil ASA" ∧
  _guess_domains_from_name U "Statoil ASA" =
    {[ "statoil.no"; "statoil.com"; "statoil.org"; "statoil.net" ]} ∧
  candidate_domains U "Statoil ASA" org_number =
    {[ "statoil.no"; "statoil.com"; "statoil.org"; "statoil.net";
       "statoilasa.no"; "statoilasa.com";
       "statoil-asa.no"; "statoil-asa.com" ]}.
Proof.
  split; [|split; [|split; [|split; [|split; [|split; [|split]]]]]].
  - vm_compute. reflexivity.
  - apply (bool_decide_unpack _). vm_compute. exact I.
  - apply (bool_decide_unpack _). vm_compute. exact I.
  - apply (bool_decide_unpack _). vm_compute. exact I.
  - apply (bool_decide_unpack _). vm_compute. exact I.
  - apply (bool_decide_unpack _). vm_compute. exact I.
  - vm_compute. reflexivity.
  - vm_compute. reflexivity.
Qed.

(** The candidates for "Statoil ASA" include "statoilasa.no". *)
Lemma candidate_domains_statoilasa :
  "statoilasa.no" ∈ candidate_domains ascii_tables "Statoil ASA" "923609016".
Proof. apply (bool_decide_unpack _). vm_compute. exact I. Qed.

(** *** Verification *)

(** What [_verify_domain] returns is decided by the resolver alone. *)
Lemma verify_domain_by_resolution net domain :
  _verify_domain net domain =
    match gethostbyname net domain with
    | Ok _ => Ok true
    | Raise e => if resolution_errors e then Ok false else Raise e
    end.
Proof.
  unfold _verify_domain, try_except, mbind, result_bind, mret, result_ret.
  destruct (gethostbyname net domain) as [[]|e]; [|done].
  destruct (session_head net (String.append "http://" domain)) as [[]|e1];
    [done|]. simpl.
  by destruct (session_head net (String.append "https://" domain)) as [[]|e2].
Qed.

(** C1: a host name with a label of 64 characters makes the resolver raise
    [UnicodeError], which [_verify_domain] does not catch. *)
Theorem verify_domain_unicode_error :
  gethostbyname offline long_label_domain = Raise UnicodeError ∧
  _verify_domain offline long_label_domain = Raise UnicodeError.
Proof. split; vm_compute; reflexivity. Qed.

(** * Further properties of the code *)

Import CompanyAnalyzer.

(** ** The estimate across tiers *)

(** One more employee lowers the estimate exactly at the three upper ends
    of a tier, 10, 50 and 250; everywhere else it raises it. *)
Theorem estimate_revenue_drops σ c1 c2 (d1 d2 : gmap string value) e :
  σ !! c1 = Some d1 → σ !! c2 = Some d2 →
  employees_of d1 = Some (VInt e) → employees_of d2 = Some (VInt (e + 1)) →
  0 ≤ e →
  ∃ r1 r2,
    _estimate_revenue c1 σ = (Ok (VInt r1), σ) ∧
    _estimate_revenue c2 σ = (Ok (VInt r2), σ) ∧
    (r2 < r1 ↔ e = 10 ∨ e = 50 ∨ e = 250) ∧
    (r1 < r2 ↔ ¬ (e = 10 ∨ e = 50 ∨ e = 250)).
Proof.
  intros Hc1 Hc2 He1 He2 H0. eexists _, _.
  split; [by apply (estimate_revenue_int σ c1 d1 e)|].
  split; [by apply (estimate_revenue_int σ c2 d2 (e + 1))|].
  destruct (Z.eqb_spec e 0), (Z.eqb_spec (e + 1) 0); try lia;
  destruct (Z.leb_spec e 10), (Z.leb_spec (e + 1) 10); try lia;
  destruct (Z.leb_spec e 50), (Z.leb_spec (e + 1) 50); try lia;
  destruct (Z.leb_spec e 250), (Z.leb_spec (e + 1) 250); lia.
Qed.

Lemma estimate_revenue_drops_witness :
  ∃ r1 r2,
    _estimate_revenue 2%positive sample_heap = (Ok (VInt r1), sample_heap) ∧
    _estimate_revenue 3%positive sample_heap = (Ok (VInt r2), sample_heap) ∧
    (r2 < r1 ↔ 10 = 10 ∨ 10 = 50 ∨ 10 = 250) ∧
    (r1 < r2 ↔ ¬ (10 = 10 ∨ 10 = 50 ∨ 10 = 250)).
Proof.
  apply (estimate_revenue_drops sample_heap 2%positive 3%positive
           {[ "antallAnsatte" := VInt 10; "naeringskode1" := VRef 7%positive ]}
           {[ "antallAnsatte" := VInt 11 ]} 10);
    [reflexivity|reflexivity|reflexivity|reflexivity|lia].
Defined.

(** ** Filtering twice *)

Lemma filter_typed_sublist σ min_employees companies :
  Forall (λ c, ∃ d : gmap string value, σ !! c = Some d ∧ employees_typed d)
    companies →
  Forall (λ c, ∃ d : gmap string value, σ !! c = Some d ∧ employees_typed d)
    (List.filter (large_enough σ min_employees) companies).
Proof.
  rewrite !Forall_forall. intros Hall c Hc. apply Hall.
  apply list_elem_of_In. apply list_elem_of_In in Hc.
  by apply filter_In in Hc as [Hc _].
Qed.

Lemma filter_large_companies_typed σ companies min_employees :
  Forall (λ c, ∃ d : gmap string value, σ !! c = Some d ∧ employees_typed d)
    companies →
  filter_large_companies companies min_employees σ =
    (Ok (List.filter (large_enough σ min_employees) companies), σ).
Proof.
  intros Hall. unfold filter_large_companies. by rewrite filter_loop_typed.
Qed.

Lemma large_enough_max σ min1 min2 c :
  large_enough σ (Z.max min1 min2) c =
    large_enough σ min1 c && large_enough σ min2 c.
Proof.
  unfold large_enough. destruct (σ !! c) as [d|]; [|done].
  destruct (employees_of d) as [[| e | |]|]; try done.
  destruct (Z.leb_spec (Z.max min1 min2) e), (Z.leb_spec min1 e),
    (Z.leb_spec min2 e); simpl; lia.
Qed.

Lemma filter_filter_and {A} (f g : A → bool) l :
  List.filter f (List.filter g l) = List.filter (λ x, g x && f x) l.
Proof.
  induction l as [|x l IH]; simpl; [done|].
  destruct (g x); simpl; [|done]. destruct (f x); by rewrite IH.
Qed.

(** Filtering what a first filter returned keeps the records that pass the
    larger of the two thresholds; with the same threshold it changes
    nothing. *)
Theorem filter_large_companies_twice σ companies min1 min2 :
  Forall (λ c, ∃ d : gmap string value, σ !! c = Some d ∧ employees_typed d)
    companies →
  ∃ kept,
    filter_large_companies companies min1 σ = (Ok kept, σ) ∧
    filter_large_companies kept min2 σ =
      (Ok (List.filter (large_enough σ (Z.max min1 min2)) companies), σ) ∧
    filter_large_companies kept min1 σ = (Ok kept, σ).
Proof.
  intros Hall. eexists.
  split; [by apply filter_large_companies_typed|].
  assert (∀ m, filter_large_companies
                 (List.filter (large_enough σ min1) companies) m σ =
               (Ok (List.filter (large_enough σ (Z.max min1 m)) companies), σ))
    as Hagain.
  { intros m.
    rewrite filter_large_companies_typed by (by apply filter_typed_sublist).
    rewrite filter_filter_and. f_equal. f_equal.
    apply filter_ext. intros c. by rewrite large_enough_max. }
  split; [apply Hagain|].
  rewrite Hagain. by rewrite Z.max_id.
Qed.

Lemma filter_large_companies_twice_witness :
  ∃ kept,
    filter_large_companies [1; 5; 4; 3; 2; 1]%positive 11 sample_heap =
      (Ok kept, sample_heap) ∧
    filter_large_companies kept 100 sample_heap =
      (Ok (List.filter (large_enough sample_heap (Z.max 11 100))
             [1; 5; 4; 3; 2; 1]%positive), sample_heap) ∧
    filter_large_companies kept 11 sample_heap = (Ok kept, sample_heap).
Proof.
  apply (filter_large_companies_twice sample_heap
           [1; 5; 4; 3; 2; 1]%positive 11 100).
  repeat apply Forall_cons_2; try apply Forall_nil_2;
    eexists; (split; [reflexivity|]);
    first [ by right; eexists | by left; left | by left; right ].
Defined.

(** ** Sorting what is sorted *)

Section SortedInput.
Context {A : Type} (k : A → Z).

Lemma insert_stable_last x ys :
  Forall (λ y, k y ≤ k x) ys → insert_stable k x ys = (ys ++ [x])%list.
Proof.
  induction 1 as [|y ys Hy _ IH]; simpl; [done|].
  destruct (Z.ltb_spec (k x) (k y)); [lia|]. by rewrite IH.
Qed.

Lemma insertion_sort_ascending_input placed todo :
  StronglySorted (λ a b : A, k a ≤ k b) (placed ++ todo) →
  insertion_sort k placed todo = (placed ++ todo)%list.
Proof.
  revert placed. induction todo as [|x todo IH]; intros placed Hs; simpl.
  - by rewrite app_nil_r.
  - rewrite insert_stable_last.
    + rewrite IH; rewrite <- app_assoc; done.
    + apply Forall_forall. intros y Hy.
      apply (StronglySorted_app_1_elem_of _ _ _ y x Hs); [done|left].
Qed.

Lemma descending_rev l :
  StronglySorted (λ a b : A, k b ≤ k a) l →
  StronglySorted (λ a b : A, k a ≤ k b) (rev l).
Proof.
  induction 1 as [|x l Hs IH Hx]; simpl; [constructor|].
  apply StronglySorted_app_2; [|done|repeat constructor].
  intros a b Ha Hb. apply list_elem_of_singleton in Hb as ->.
  rewrite Forall_forall in Hx. apply Hx.
  apply list_elem_of_In, in_rev, list_elem_of_In. exact Ha.
Qed.

Lemma sorted_descending_fixed xs :
  StronglySorted (λ a b : A, k b ≤ k a) xs → sorted_descending k xs = xs.
Proof.
  intros Hs. unfold sorted_descending.
  rewrite (insertion_sort_ascending_input [] (rev xs)).
  - simpl. apply rev_involutive.
  - simpl. by apply descending_rev.
Qed.

End SortedInput.

(** A list that is already in falling order of the keys comes back as it
    is: the sort moves no record, and records of equal key stay where they
    were. *)
Theorem sort_by_revenue_estimate_sorted_input σ companies :
  Forall (λ c, ∃ d : gmap string value, σ !! c = Some d ∧ revenue_typed d)
    companies →
  StronglySorted (λ a b, revenue_key σ b ≤ revenue_key σ a) companies →
  sort_by_revenue_estimate companies σ = (Ok companies, σ).
Proof.
  intros Hall Hs. rewrite sort_by_revenue_estimate_typed by done.
  by rewrite sorted_descending_fixed.
Qed.

Lemma sort_by_revenue_estimate_sorted_input_witness :
  sort_by_revenue_estimate [3; 1; 4; 2; 5]%positive sample_ranking =
    (Ok [3; 1; 4; 2; 5]%positive, sample_ranking).
Proof.
  apply (sort_by_revenue_estimate_sorted_input sample_ranking
           [3; 1; 4; 2; 5]%positive).
  - repeat apply Forall_cons_2; try apply Forall_nil_2;
      eexists; (split; [reflexivity|]);
      first [ by left | by right; left | by right; right; eexists ].
  - repeat (apply SSorted_cons; [|repeat apply Forall_cons_2;
                                   try apply Forall_nil_2; vm_compute; discriminate]).
    apply SSorted_nil.
Defined.

Lemma sorted_typed_sublist σ companies :
  Forall (λ c, ∃ d : gmap string value, σ !! c = Some d ∧ revenue_typed d)
    companies →
  Forall (λ c, ∃ d : gmap string value, σ !! c = Some d ∧ revenue_typed d)
    (sorted_descending (revenue_key σ) companies).
Proof.
  intros Hall.
  destruct (sorted_descending_spec (revenue_key σ) companies) as (Hperm & _).
  by rewrite Hperm.
Qed.

(** Sorting the outcome of a sort changes nothing. *)
Theorem sort_by_revenue_estimate_twice σ companies :
  Forall (λ c, ∃ d : gmap string value, σ !! c = Some d ∧ revenue_typed d)
    companies →
  ∃ out,
    sort_by_revenue_estimate companies σ = (Ok out, σ) ∧
    sort_by_revenue_estimate out σ = (Ok out, σ).
Proof.
  intros Hall. eexists. split; [by apply sort_by_revenue_estimate_typed|].
  rewrite sort_by_revenue_estimate_typed by (by apply sorted_typed_sublist).
  rewrite sorted_descending_fixed; [done|].
  apply (sorted_descending_spec (revenue_key σ) companies).
Qed.

Lemma sort_by_revenue_estimate_twice_witness :
  ∃ out,
    sort_by_revenue_estimate [1; 2; 3; 4; 5]%positive sample_ranking =
      (Ok out, sample_ranking) ∧
    sort_by_revenue_estimate out sample_ranking = (Ok out, sample_ranking).
Proof.
  apply (sort_by_revenue_estimate_twice sample_ranking [1; 2; 3; 4; 5]%positive).
  repeat apply Forall_cons_2; try apply Forall_nil_2;
    eexists; (split; [reflexivity|]);
    first [ by left | by right; left | by right; right; eexists ].
Defined.

(** ** A count that is no number stops the filter *)

Lemma filter_loop_app_typed σ min_employees pre rest filtered :
  Forall (λ c, ∃ d : gmap string value, σ !! c = Some d ∧ employees_typed d)
    pre →
  filter_loop (pre ++ rest) min_employees filtered σ =
    filter_loop rest min_employees
      (filtered ++ List.filter (large_enough σ min_employees) pre)%list σ.
Proof.
  intros Hall. revert filtered.
  induction Hall as [|c pre (d & Hc & Ht) _ IH]; intros filtered; simpl.
  - by rewrite app_nil_r.
  - rewrite (bind_ok _ _ _ _ _ (dict_get_ok _ _ _ _ _ Hc)).
    unfold large_enough at 1. rewrite Hc.
    unfold employees_typed, employees_absent, employees_of in *.
    destruct Ht as [[-> | ->] | [e ->]]; simpl; run_M.
    + apply IH.
    + apply IH.
    + rewrite IH. replace (e >=? min_employees) with (min_employees <=? e)
        by (rewrite Z.geb_leb; done).
      destruct (min_employees <=? e); [|done].
      by rewrite <- app_assoc.
Qed.

(** When the count of a record is present and is neither [None] nor an
    integer, a string or a dictionary, the filter raises [TypeError] at
    that record: the records before it that passed are not returned, and
    the heap is as it was. *)
Theorem filter_large_companies_type_error σ pre c post (d : gmap string value)
    v min_employees :
  Forall (λ c, ∃ d : gmap string value, σ !! c = Some d ∧ employees_typed d)
    pre →
  σ !! c = Some d → employees_of d = Some v →
  v ≠ VNone → (∀ e, v ≠ VInt e) →
  filter_large_companies (pre ++ c :: post) min_employees σ =
    (Raise TypeError, σ).
Proof.
  intros Hall Hc Hv Hnone Hint. unfold filter_large_companies.
  rewrite filter_loop_app_typed by done. simpl.
  rewrite (bind_ok _ _ _ _ _ (dict_get_ok _ _ _ _ _ Hc)).
  unfold employees_of in Hv. rewrite Hv. simpl.
  destruct v as [| e | s | l]; [done|by destruct (Hint e)| |]; by run_M.
Qed.

Lemma filter_large_companies_type_error_witness :
  filter_large_companies [1; 5; 6; 3]%positive 10 sample_heap =
    (Raise TypeError, sample_heap).
Proof.
  apply (filter_large_companies_type_error sample_heap [1; 5]%positive
           6%positive [3]%positive {[ "antallAnsatte" := VStr "12" ]}
           (VStr "12") 10); [|reflexivity|reflexivity|discriminate|discriminate].
  repeat apply Forall_cons_2; try apply Forall_nil_2;
    eexists; (split; [reflexivity|]);
    first [ by right; eexists | by left; left | by left; right ].
Defined.

(** ** Enriching an enriched record *)

Lemma industry_code_typed_extend σ τ (d d' : gmap string value) :
  d' !! "naeringskode1" = d !! "naeringskode1" →
  (∀ l, l ∈ dom σ → τ !! l = σ !! l) →
  (no_nace_code σ d → no_nace_code τ d') ∧
  (∀ s, has_nace_code σ d s → has_nace_code τ d' s).
Proof.
  intros Hk Hagree.
  assert (∀ l (dl : gmap string value), σ !! l = Some dl → τ !! l = Some dl)
    as Hup.
  { intros l dl Hl. rewrite Hagree; [done|]. apply elem_of_dom. by rewrite Hl. }
  split.
  - intros [Hno | (l & dl & Hd & Hl & Hs)].
    + left. by rewrite Hk.
    + right. exists l, dl. rewrite Hk. auto.
  - intros s (l & dl & Hd & Hl & Hs). exists l, dl. rewrite Hk. auto.
Qed.

(** The three readers look at the items [antallAnsatte] and
    [naeringskode1] only: two well-formed records that agree on them are
    read alike. *)
Lemma readers_same_items σ τ c c' (d d' : gmap string value) :
  σ !! c = Some d → τ !! c' = Some d' →
  employees_of d' = employees_of d →
  d' !! "naeringskode1" = d !! "naeringskode1" →
  (∀ l, l ∈ dom σ → τ !! l = σ !! l) →
  employees_missing_or_int d → industry_code_typed σ d →
  (_estimate_revenue c' τ).1 = (_estimate_revenue c σ).1 ∧
  (_classify_company_size c' τ).1 = (_classify_company_size c σ).1 ∧
  (_get_industry_category c' τ).1 = (_get_industry_category c σ).1.
Proof.
  intros Hc Hc' He' Hk Hagree He Hi.
  destruct (industry_code_typed_extend σ τ d d' Hk Hagree) as [Hno Hhas].
  split; [|split].
  - destruct He as [He | [e He]].
    + rewrite (estimate_revenue_absent σ c d Hc) by (by left).
      rewrite (estimate_revenue_absent τ c' d' Hc'); [done|].
      left. by rewrite He'.
    + rewrite (estimate_revenue_int σ c d e Hc He).
      by rewrite (estimate_revenue_int τ c' d' e Hc') by (by rewrite He').
  - destruct He as [He | [e He]].
    + rewrite (classify_company_size_missing σ c d Hc He).
      by rewrite (classify_company_size_missing τ c' d' Hc')
        by (by rewrite He').
    + rewrite (classify_company_size_int σ c d e Hc He).
      by rewrite (classify_company_size_int τ c' d' e Hc') by (by rewrite He').
  - destruct Hi as [Hn | [s Hs]].
    + rewrite (get_industry_category_no_code σ c d Hc Hn).
      by rewrite (get_industry_category_no_code τ c' d' Hc' (Hno Hn)).
    + destruct (decide (s = "")) as [-> | Hne].
      * assert (no_nace_code σ d) as Hn.
        { destruct Hs as (l & dl & ? & ? & ?). right. exists l, dl. auto 6. }
        rewrite (get_industry_category_no_code σ c d Hc Hn).
        by rewrite (get_industry_category_no_code τ c' d' Hc' (Hno Hn)).
      * rewrite (get_industry_category_code σ c d s Hc Hs Hne).
        by rewrite (get_industry_category_code τ c' d' s Hc' (Hhas s Hs) Hne).
Qed.

Lemma enriched_record_twice (d : gmap string value) revenue size industry :
  enriched_record (enriched_record d revenue size industry)
    revenue size industry =
  enriched_record d revenue size industry.
Proof.
  unfold enriched_record. apply map_eq. intros k.
  destruct (decide (k = "industry_category")) as [-> | N1];
    [by rewrite !lookup_insert_eq|].
  rewrite (lookup_insert_ne _ "industry_category" k) by done.
  destruct (decide (k = "size_category")) as [-> | N2];
    [rewrite lookup_insert_eq, lookup_insert_ne by done;
     by rewrite lookup_insert_eq|].
  rewrite (lookup_insert_ne _ "size_category" k) by done.
  destruct (decide (k = "estimated_revenue")) as [-> | N3].
  - rewrite lookup_insert_eq, !lookup_insert_ne by done.
    by rewrite lookup_insert_eq.
  - by rewrite (lookup_insert_ne _ "estimated_revenue" k) by done.
Qed.

(** Enriching a record that enrichment returned gives a second new record
    with the same items: the derived values are computed again from the
    items that were copied, and come out the same. *)
Theorem enrich_company_data_twice σ c (d : gmap string value) :
  σ !! c = Some d → employees_missing_or_int d → industry_code_typed σ d →
  ∃ c1 σ1 c2 σ2 (d1 : gmap string value),
    enrich_company_data c σ = (Ok c1, σ1) ∧
    enrich_company_data c1 σ1 = (Ok c2, σ2) ∧
    c2 ≠ c1 ∧ c2 ≠ c ∧
    σ1 !! c1 = Some d1 ∧ σ2 !! c1 = Some d1 ∧ σ2 !! c2 = Some d1 ∧
    σ2 !! c = Some d.
Proof.
  intros Hc He Hi.
  destruct (enrich_company_data_typed σ c d Hc He Hi)
    as (revenue & size & industry & H1 & H2 & H3 & Hrun & _).
  set (c1 := fresh (dom σ)) in *.
  set (d1 := enriched_record d revenue size industry) in *.
  set (σ1 := <[c1 := d1]> σ) in *.
  assert (σ1 !! c1 = Some d1) as Hc1 by apply lookup_insert_eq.
  assert (c ≠ c1) as Hne.
  { apply fresh_not_allocated, elem_of_dom. by rewrite Hc. }
  assert (∀ l, l ∈ dom σ → σ1 !! l = σ !! l) as Hagree.
  { intros l Hl. unfold σ1. rewrite lookup_insert_ne; [done|].
    intros <-. by apply (is_fresh (dom σ)). }
  assert (employees_of d1 = employees_of d) as He1.
  { unfold employees_of, d1, enriched_record. by rewrite !lookup_insert_ne. }
  assert (d1 !! "naeringskode1" = d !! "naeringskode1") as Hk1.
  { unfold d1, enriched_record. by rewrite !lookup_insert_ne. }
  destruct (industry_code_typed_extend σ σ1 d d1 Hk1 Hagree) as [Hno Hhas].
  assert (employees_missing_or_int d1) as He1'.
  { unfold employees_missing_or_int. by rewrite He1. }
  assert (industry_code_typed σ1 d1) as Hi1.
  { destruct Hi as [Hn | [s Hs]]; [left; auto | right; exists s; auto]. }
  destruct (enrich_company_data_typed σ1 c1 d1 Hc1 He1' Hi1)
    as (revenue' & size' & industry' & H1' & H2' & H3' & Hrun' & _).
  destruct (readers_same_items σ σ1 c c1 d d1 Hc Hc1 He1 Hk1 Hagree He Hi)
    as (E1 & E2 & E3).
  rewrite H1, H1' in E1. rewrite H2, H2' in E2. rewrite H3, H3' in E3.
  simpl in E1, E2, E3.
  injection E1 as ->. injection E2 as ->. injection E3 as ->.
  set (c2 := fresh (dom σ1)) in *.
  assert (c1 ≠ c2) as Hne12.
  { apply fresh_not_allocated, elem_of_dom. by rewrite Hc1. }
  assert (c ≠ c2) as Hne2.
  { apply fresh_not_allocated, elem_of_dom. unfold σ1.
    rewrite lookup_insert_ne by done. by rewrite Hc. }
  eexists c1, σ1, c2, _, d1.
  split; [exact Hrun|]. split; [exact Hrun'|].
  split; [done|]. split; [done|]. split; [done|].
  split; [by rewrite lookup_insert_ne|].
  split; [rewrite lookup_insert_eq; f_equal; apply enriched_record_twice|].
  rewrite lookup_insert_ne by done. unfold σ1.
  by rewrite lookup_insert_ne.
Qed.

Lemma enrich_company_data_twice_witness :
  ∃ c1 σ1 c2 σ2 (d1 : gmap string value),
    enrich_company_data 2%positive sample_heap = (Ok c1, σ1) ∧
    enrich_company_data c1 σ1 = (Ok c2, σ2) ∧
    c2 ≠ c1 ∧ c2 ≠ 2%positive ∧
    σ1 !! c1 = Some d1 ∧ σ2 !! c1 = Some d1 ∧ σ2 !! c2 = Some d1 ∧
    σ2 !! 2%positive =
      Some {[ "antallAnsatte" := VInt 10; "naeringskode1" := VRef 7%positive ]}.
Proof.
  apply (enrich_company_data_twice sample_heap 2%positive
           {[ "antallAnsatte" := VInt 10; "naeringskode1" := VRef 7%positive ]});
    [reflexivity| |].
  - right. by exists 10.
  - right. exists "62.010", 7%positive, {[ "kode" := VStr "62.010" ]}. done.
Defined.

(** ** The shape of the candidates *)

Lemma string_forallb_app p s t :
  string_forallb p (String.append s t) =
    string_forallb p s && string_forallb p t.
Proof.
  induction s as [|c s IH]; simpl; [done|]. rewrite IH.
  by destruct (p c).
Qed.

Lemma string_forallb_impl (p q : ascii → bool) s :
  (∀ c, p c = true → q c = true) →
  string_forallb p s = true → string_forallb q s = true.
Proof.
  intros Hpq. induction s as [|c s IH]; simpl; [done|].
  intros [Hc Hs]%andb_prop. rewrite (Hpq c Hc). by apply IH.
Qed.

Lemma string_filter_forallb p s :
  string_forallb p (string_filter p s) = true.
Proof.
  induction s as [|c s IH]; simpl; [done|].
  destruct (p c) eqn:Hc; simpl; [by rewrite Hc|done].
Qed.

Lemma substring_forallb p n m s :
  string_forallb p s = true →
  string_forallb p (String.substring n m s) = true.
Proof.
  revert n m. induction s as [|c s IH]; intros n m; simpl.
  - by destruct n, m.
  - intros [Hc Hs]%andb_prop.
    destruct n as [|n]; [destruct m as [|m]; simpl; [done|]|by apply IH].
    rewrite Hc. by apply IH.
Qed.

Lemma remove_first_suffix_forallb p suffixes s :
  string_forallb p s = true →
  string_forallb p (remove_first_suffix suffixes s) = true.
Proof.
  intros Hs. induction suffixes as [|suffix rest IH]; simpl; [done|].
  destruct (endswith s suffix); [|done].
  by apply substring_forallb.
Qed.

Lemma append_not_empty s t : s ≠ "" → String.append s t ≠ "".
Proof. by destruct s. Qed.

Lemma guess_domains_from_name_label U company_name :
  _guess_domains_from_name U company_name = ∅ ∨
  ∃ label,
    (3 ≤ String.length label)%nat ∧
    string_forallb (λ c, is_az c || is_09 c) label = true ∧
    _guess_domains_from_name U company_name =
      {[ String.append label ".no"; String.append label ".com";
         String.append label ".org"; String.append label ".net" ]}.
Proof.
  unfold _guess_domains_from_name. case_bool_decide; [by left|]. cbv zeta.
  set (label := remove_first_suffix _ _).
  destruct (Nat.leb_spec 3 (String.length label)) as [Hlen|_]; [right|by left].
  exists label. split; [done|]. split.
  - apply remove_first_suffix_forallb, string_filter_forallb.
  - simpl. by rewrite (left_id_L ∅ (∪)).
Qed.

Lemma append_inj_r s t1 t2 : String.append s t1 = String.append s t2 → t1 = t2.
Proof. induction s as [|c s IH]; simpl; [done|]. intros [= H]. by apply IH. Qed.

(** The guesses from the name are none, or exactly four: the four endings
    behind one label of three or more characters, all of them small
    letters or digits. *)
Theorem guess_domains_from_name_shape U company_name :
  _guess_domains_from_name U company_name = ∅ ∨
  ∃ label,
    (3 ≤ String.length label)%nat ∧
    string_forallb (λ c, is_az c || is_09 c) label = true ∧
    _guess_domains_from_name U company_name =
      {[ String.append label ".no"; String.append label ".com";
         String.append label ".org"; String.append label ".net" ]} ∧
    size (_guess_domains_from_name U company_name) = 4%nat.
Proof.
  destruct (guess_domains_from_name_label U company_name)
    as [Hnone | (label & Hlen & Hlab & Hset)]; [by left|right].
  exists label. do 3 (split; [done|]). rewrite Hset.
  assert (∀ t1 t2, t1 ≠ t2 → String.append label t1 ≠ String.append label t2)
    as Hne.
  { intros t1 t2 Ht Heq. by apply Ht, (append_inj_r label). }
  rewrite !size_union, !size_singleton; [done|..].
  - apply disjoint_singleton_l, not_elem_of_singleton. by apply Hne.
  - apply disjoint_singleton_r. rewrite elem_of_union, !elem_of_singleton.
    intros [H | H]; revert H; by apply Hne.
  - apply disjoint_singleton_r.
    rewrite !elem_of_union, !elem_of_singleton.
    intros [[H | H] | H]; revert H; by apply Hne.
Qed.

(** The words that [findall] gives are not empty and hold ASCII letters
    only. *)
Lemma scan_words_letters U st s :
  (∀ run, st = InLetters run →
          run ≠ "" ∧ string_forallb is_letter run = true) →
  Forall (λ w, w ≠ "" ∧ string_forallb is_letter w = true) (scan_words U st s).
Proof.
  revert st. induction s as [|c s IH]; intros st Hst; simpl.
  - destruct st as [|run|]; repeat constructor; by apply Hst.
  - unfold scan_step. destruct (is_letter c) eqn:Hc.
    + destruct st as [|run|]; simpl; apply IH; try discriminate.
      * intros ? [= <-]. simpl. by rewrite Hc.
      * intros ? [= <-]. destruct (Hst run eq_refl) as [Hne Hrun].
        split; [by apply append_not_empty|].
        rewrite string_forallb_app, Hrun. simpl. by rewrite Hc.
    + destruct (is_word U c); simpl; [apply IH; discriminate|].
      destruct st as [|run|]; simpl; try (apply IH; discriminate).
      constructor; [by apply Hst|]. apply IH. discriminate.
Qed.

Lemma letter_is_label_char c : is_letter c = true → is_label_char c = true.
Proof.
  unfold is_letter, is_label_char. intros [->| ->]%orb_prop; simpl; [done|].
  by rewrite orb_true_r.
Qed.

Lemma alnum_is_label_char c :
  is_az c || is_09 c = true → is_label_char c = true.
Proof.
  unfold is_label_char. intros [->| ->]%orb_prop; simpl; [done|].
  by rewrite !orb_true_r.
Qed.

Lemma tld_no : ".no" ∈ tlds.
Proof. unfold tlds. rewrite !elem_of_cons. tauto. Qed.

Lemma tld_com : ".com" ∈ tlds.
Proof. unfold tlds. rewrite !elem_of_cons. tauto. Qed.

Lemma search_common_patterns_labels U company_name domain :
  domain ∈ _search_common_patterns U company_name →
  ∃ label tld,
    domain = String.append label tld ∧ tld ∈ tlds ∧
    label ≠ "" ∧ string_forallb is_label_char label = true.
Proof.
  unfold _search_common_patterns.
  case_bool_decide; [by intros []%elem_of_empty|]. cbv zeta.
  pose proof (scan_words_letters U Outside (lower U company_name)
                ltac:(discriminate)) as Hw.
  fold (findall_words U (lower U company_name)) in Hw.
  destruct (findall_words U (lower U company_name)) as [|w1 [|w2 rest]].
  - change (2 <=? length (@nil string))%nat with false. cbv beta iota.
    by intros []%elem_of_empty.
  - apply Forall_cons_1 in Hw as [[Hne1 Hl1] _].
    assert (string_forallb is_label_char w1 = true) as Hlab1
      by (eapply string_forallb_impl; [apply letter_is_label_char|done]).
    change (2 <=? length [w1])%nat with false. cbv beta iota.
    destruct (3 <=? String.length w1)%nat; [|by intros []%elem_of_empty].
    rewrite !elem_of_union, !elem_of_singleton.
    intros [[[]%elem_of_empty | ->] | ->]; eexists w1, _;
      (split; [reflexivity|]); (split; [first [apply tld_no|apply tld_com]|]);
      done.
  - apply Forall_cons_1 in Hw as [[Hne1 Hl1] Hw].
    apply Forall_cons_1 in Hw as [[Hne2 Hl2] _].
    assert (string_forallb is_label_char w1 = true) as Hlab1
      by (eapply string_forallb_impl; [apply letter_is_label_char|done]).
    assert (string_forallb is_label_char w2 = true) as Hlab2
      by (eapply string_forallb_impl; [apply letter_is_label_char|done]).
    assert (string_forallb is_label_char (String.append w1 w2) = true) as Hc.
    { by rewrite string_forallb_app, Hlab1, Hlab2. }
    assert (string_forallb is_label_char
              (String.append w1 (String.append "-" w2)) = true) as Hd.
    { by rewrite !string_forallb_app, Hlab1, Hlab2. }
    change (join "" (take 2 (w1 :: w2 :: rest))) with (String.append w1 w2).
    change (join "-" (take 2 (w1 :: w2 :: rest)))
      with (String.append w1 (String.append "-" w2)).
    assert (∀ X : gset string,
              domain ∈ X ∪ {[ String.append (String.append w1 (String.append "-" w2)) ".no" ]}
                         ∪ {[ String.append (String.append w1 (String.append "-" w2)) ".com" ]} →
              domain ∈ X ∨
              ∃ label tld,
                domain = String.append label tld ∧ tld ∈ tlds ∧
                label ≠ "" ∧ string_forallb is_label_char label = true)
      as Hdashed.
    { intros X. rewrite !elem_of_union, !elem_of_singleton.
      intros [[? | ->] | ->]; [by left| |]; right; eexists _, _;
        (split; [reflexivity|]);
        (split; [first [apply tld_no|apply tld_com]|]);
        (split; [by apply append_not_empty|done]). }
    assert (∀ w (X : gset string),
              w ≠ "" → string_forallb is_label_char w = true →
              domain ∈ X ∪ {[ String.append w ".no" ]}
                         ∪ {[ String.append w ".com" ]} →
              domain ∈ X ∨
              ∃ label tld,
                domain = String.append label tld ∧ tld ∈ tlds ∧
                label ≠ "" ∧ string_forallb is_label_char label = true)
      as Hpair.
    { intros w X Hne Hlab. rewrite !elem_of_union, !elem_of_singleton.
      intros [[? | ->] | ->]; [by left| |]; right; eexists w, _;
        (split; [reflexivity|]);
        (split; [first [apply tld_no|apply tld_com]|]); done. }
    pose proof (λ X, Hpair w1 X Hne1 Hlab1) as Hp1.
    pose proof (λ X, Hpair (String.append w1 w2) X
                       (append_not_empty w1 w2 Hne1) Hc) as Hp2.
    change (2 <=? length (w1 :: w2 :: rest))%nat with true. cbv beta iota.
    intros Hin.
    destruct (4 <=? String.length (String.append w1 w2))%nat;
      destruct (3 <=? String.length w1)%nat;
      repeat first
        [ done
        | apply elem_of_empty in Hin; destruct Hin
        | apply Hdashed in Hin as [Hin | ?]
        | apply Hp2 in Hin as [Hin | ?]
        | apply Hp1 in Hin as [Hin | ?] ].
Qed.

(** Every candidate is one label followed by one of the four endings; the
    label is not empty and holds ASCII letters, digits and hyphens only,
    whatever characters the company name holds. *)
Theorem candidate_domains_host_names U company_name org_number domain :
  domain ∈ candidate_domains U company_name org_number →
  ∃ label tld,
    domain = String.append label tld ∧ tld ∈ tlds ∧
    label ≠ "" ∧ string_forallb is_label_char label = true.
Proof.
  unfold candidate_domains, _search_whois_by_org_number. cbv zeta.
  rewrite !elem_of_union.
  intros [[[[]%elem_of_empty | Hg] | []%elem_of_empty] | Hp];
    [|by apply (search_common_patterns_labels U company_name)].
  destruct (guess_domains_from_name_label U company_name)
    as [Hnone | (label & Hlen & Hlab & Hset)].
  { rewrite Hnone in Hg. by apply elem_of_empty in Hg. }
  rewrite Hset in Hg. revert Hg.
  rewrite !elem_of_union, !elem_of_singleton.
  assert (label ≠ "") as Hne by (destruct label; [simpl in Hlen; lia|done]).
  assert (string_forallb is_label_char label = true) as Hlab'
    by (eapply string_forallb_impl; [apply alnum_is_label_char|done]).
  intros [[[-> | ->] | ->] | ->]; eexists label, _;
    (split; [reflexivity|]);
    (split; [unfold tlds; rewrite !elem_of_cons; tauto|]); done.
Qed.

Lemma candidate_domains_host_names_witness :
  ∃ label tld,
    "statoil-asa.com" = String.append label tld ∧ tld ∈ tlds ∧
    label ≠ "" ∧ string_forallb is_label_char label = true.
Proof.
  apply (candidate_domains_host_names ascii_tables "Statoil ASA" "923609016").
  apply (bool_decide_unpack _). vm_compute. exact I.
Defined.

(** ** The number of candidates *)

Lemma size_add (X : gset string) x n :
  (size X ≤ n)%nat → (size (X ∪ {[ x ]}) ≤ S n)%nat.
Proof.
  intros Hn. rewrite size_union_alt.
  assert (size (({[ x ]} : gset string) ∖ X) ≤ 1)%nat.
  { rewrite <- (size_singleton (C := gset string) x).
    apply subseteq_size. by intros y [Hy _]%elem_of_difference. }
  lia.
Qed.

Lemma size_union_le (X Y : gset string) :
  (size (X ∪ Y) ≤ size X + size Y)%nat.
Proof.
  rewrite size_union_alt.
  assert (size (Y ∖ X) ≤ size Y)%nat.
  { apply subseteq_size. by intros y [Hy _]%elem_of_difference. }
  lia.
Qed.

(** A company has at most ten candidates, four guessed from the cleaned
    name and six from the word patterns, so at most ten names are looked
    up for it. *)
Theorem candidate_domains_at_most_ten U company_name org_number :
  (size (_guess_domains_from_name U company_name) ≤ 4)%nat ∧
  (size (_search_common_patterns U company_name) ≤ 6)%nat ∧
  (size (candidate_domains U company_name org_number) ≤ 10)%nat.
Proof.
  assert (size (_guess_domains_from_name U company_name) ≤ 4)%nat as Hg.
  { unfold _guess_domains_from_name. cbv zeta.
    case_bool_decide; [rewrite size_empty; lia|].
    destruct (3 <=? _)%nat; [|rewrite size_empty; lia].
    cbn [foldl]. repeat apply size_add. rewrite size_empty. lia. }
  assert (size (_search_common_patterns U company_name) ≤ 6)%nat as Hp.
  { unfold _search_common_patterns. cbv zeta.
    case_bool_decide; [rewrite size_empty; lia|].
    destruct (findall_words U (lower U company_name)) as [|w1 [|w2 rest]];
      [ change (2 <=? length (@nil string))%nat with false
      | change (2 <=? length [w1])%nat with false
      | change (2 <=? length (w1 :: w2 :: rest))%nat with true ];
      cbv beta iota;
      repeat match goal with
             | |- context [if (?a <=? ?b)%nat then _ else _] =>
                 destruct (a <=? b)%nat
             end;
      repeat apply size_add; rewrite size_empty; lia. }
  split; [done|]. split; [done|].
  unfold candidate_domains, _search_whois_by_org_number. cbv zeta.
  rewrite (left_id_L ∅ (∪)), (right_id_L ∅ (∪)).
  pose proof (size_union_le (_guess_domains_from_name U company_name)
                (_search_common_patterns U company_name)). lia.
Qed.

(** ** Finding the domains of a company *)

Lemma verify_domain_resolved net domain :
  gethostbyname net domain = Ok tt → _verify_domain net domain = Ok true.
Proof.
  intros Hr.
  unfold _verify_domain, try_except, mbind, result_bind, mret, result_ret.
  rewrite Hr.
  destruct (session_head net (String.append "http://" domain)) as [[]|e1];
    [done|]. simpl.
  by destruct (session_head net (String.append "https://" domain)) as [[]|e2].
Qed.

Lemma verify_domain_unresolved net domain e :
  gethostbyname net domain = Raise e →
  _verify_domain net domain =
    if resolution_errors e then Ok false else Raise e.
Proof.
  intros Hr.
  unfold _verify_domain, try_except, mbind, result_bind, mret, result_ret.
  by rewrite Hr.
Qed.

Lemma verify_loop_caught net domains verified :
  (∀ domain e, domain ∈ domains → gethostbyname net domain = Raise e →
               resolution_errors e = true) →
  ∃ found,
    verify_loop net domains verified = Ok found ∧
    ∀ domain, domain ∈ found ↔
              domain ∈ verified ∨
              (domain ∈ domains ∧ gethostbyname net domain = Ok tt).
Proof.
  revert verified.
  induction domains as [|domain0 domains IH]; intros verified Hcaught; simpl.
  - exists verified. split; [done|]. intros domain. split; [by left|].
    intros [? | [[]%elem_of_nil _]]. done.
  - assert (∀ domain e, domain ∈ domains →
                        gethostbyname net domain = Raise e →
                        resolution_errors e = true) as Hrest.
    { intros domain e Hin. apply Hcaught. by right. }
    destruct (gethostbyname net domain0) as [[]|e] eqn:Hr.
    + rewrite (verify_domain_resolved net domain0 Hr).
      destruct (IH (verified ∪ {[ domain0 ]}) Hrest) as (found & -> & Hfound).
      exists found. split; [done|]. intros domain. rewrite Hfound.
      rewrite elem_of_union, elem_of_singleton, elem_of_cons. split.
      * intros [[? | ->] | [? ?]]; auto.
      * intros [? | [[-> | ?] ?]]; auto.
    + rewrite (verify_domain_unresolved net domain0 e Hr).
      assert (resolution_errors e = true) as ->
        by (apply (Hcaught domain0 e); [by left|done]).
      destruct (IH verified Hrest) as (found & -> & Hfound).
      exists found. split; [done|]. intros domain. rewrite Hfound.
      rewrite elem_of_cons. split.
      * intros [? | [? ?]]; auto.
      * intros [? | [[-> | ?] Hok]]; auto. congruence.
Qed.

Lemma verify_loop_uncaught net domains verified domain e :
  domain ∈ domains → gethostbyname net domain = Raise e →
  resolution_errors e = false →
  ∃ e', verify_loop net domains verified = Raise e' ∧
        resolution_errors e' = false.
Proof.
  intros Hin Hr He. revert verified.
  induction domains as [|domain0 domains IH]; intros verified; simpl.
  - by apply elem_of_nil in Hin.
  - destruct (gethostbyname net domain0) as [[]|e0] eqn:Hr0.
    + rewrite (verify_domain_resolved net domain0 Hr0).
      apply IH. apply elem_of_cons in Hin as [-> | Hin]; [congruence|done].
    + rewrite (verify_domain_unresolved net domain0 e0 Hr0).
      destruct (resolution_errors e0) eqn:He0; [|by exists e0].
      apply IH. apply elem_of_cons in Hin as [-> | Hin]; [congruence|done].
Qed.

Lemma on_org_number_empty org_number : on_org_number org_number = ∅.
Proof. by destruct org_number. Qed.

(** On a record whose name is missing, [None] or a string the call comes
    down to the loop over the candidates for that name. *)
Lemma find_domains_for_company_candidates U net iteration σ c
    (d : gmap string value) org_number :
  σ !! c = Some d → name_typed d →
  find_domains_for_company U net iteration c σ =
    (verify_loop net
       (iteration (candidate_domains U (name_of d) org_number)) ∅, σ).
Proof.
  intros Hc Hname. unfold find_domains_for_company. cbv zeta.
  rewrite (bind_ok _ _ _ _ _ (dict_get_ok _ _ _ _ _ Hc)).
  rewrite (bind_ok _ _ _ _ _ (dict_get_ok _ _ _ _ _ Hc)).
  rewrite on_org_number_empty.
  unfold candidate_domains, _search_whois_by_org_number, name_of. cbv zeta.
  destruct Hname as [-> | [-> | [s ->]]]; reflexivity.
Qed.

(** When every failure of the resolver on a candidate is one of the three
    classes that [_verify_domain] catches, the call returns exactly the
    candidates that resolve, and leaves the heap as it was; the order in
    which the set hands out its members makes no difference. *)
Theorem find_domains_for_company_verified U net iteration σ c
    (d : gmap string value) org_number :
  σ !! c = Some d → name_typed d →
  (∀ X, iteration X ≡ₚ elements X) →
  (∀ domain e,
     domain ∈ candidate_domains U (name_of d) org_number →
     gethostbyname net domain = Raise e → resolution_errors e = true) →
  ∃ found,
    find_domains_for_company U net iteration c σ = (Ok found, σ) ∧
    ∀ domain, domain ∈ found ↔
              domain ∈ candidate_domains U (name_of d) org_number ∧
              gethostbyname net domain = Ok tt.
Proof.
  intros Hc Hname Hiter Hcaught.
  rewrite (find_domains_for_company_candidates U net iteration σ c d
             org_number Hc Hname).
  set (candidates := candidate_domains U (name_of d) org_number) in *.
  assert (∀ domain, domain ∈ iteration candidates ↔ domain ∈ candidates)
    as Hmem.
  { intros domain. rewrite (Hiter candidates). apply elem_of_elements. }
  destruct (verify_loop_caught net (iteration candidates) ∅)
    as (found & -> & Hfound).
  { intros domain e Hin. apply Hcaught. by apply Hmem. }
  exists found. split; [done|]. intros domain. rewrite Hfound, Hmem.
  rewrite elem_of_empty. tauto.
Qed.

Lemma find_domains_for_company_verified_witness :
  ∃ found,
    find_domains_for_company ascii_tables norwegian_only elements 1%positive
      sample_heap = (Ok found, sample_heap) ∧
    ∀ domain, domain ∈ found ↔
              domain ∈ candidate_domains ascii_tables "Nordic Kraft AS"
                         "900000000" ∧
              gethostbyname norwegian_only domain = Ok tt.
Proof.
  assert (name_of {[ "navn" := VStr "Nordic Kraft AS";
                     "organisasjonsnummer" := VStr "900000000";
                     "antallAnsatte" := VInt 120 ]} = "Nordic Kraft AS")
    as Hname by reflexivity.
  rewrite <- Hname.
  apply (find_domains_for_company_verified ascii_tables norwegian_only
           elements sample_heap 1%positive
           {[ "navn" := VStr "Nordic Kraft AS";
              "organisasjonsnummer" := VStr "900000000";
              "antallAnsatte" := VInt 120 ]} "900000000").
  - reflexivity.
  - right. right. by exists "Nordic Kraft AS".
  - reflexivity.
  - intros domain e _. simpl.
    destruct (endswith domain ".no"); [discriminate|]. by intros [= <-].
Defined.

(** When the resolver fails on some candidate with an exception outside
    the three classes, the call raises such an exception and returns no
    domain at all, also not the candidates that resolve. *)
Theorem find_domains_for_company_uncaught U net iteration σ c
    (d : gmap string value) org_number domain e :
  σ !! c = Some d → name_typed d →
  (∀ X, iteration X ≡ₚ elements X) →
  domain ∈ candidate_domains U (name_of d) org_number →
  gethostbyname net domain = Raise e → resolution_errors e = false →
  ∃ e',
    find_domains_for_company U net iteration c σ = (Raise e', σ) ∧
    resolution_errors e' = false.
Proof.
  intros Hc Hname Hiter Hin Hr He.
  rewrite (find_domains_for_company_candidates U net iteration σ c d
             org_number Hc Hname).
  destruct (verify_loop_uncaught net
              (iteration (candidate_domains U (name_of d) org_number)) ∅
              domain e) as (e' & -> & He'); [|done|done|by exists e'].
  rewrite (Hiter _). by apply elem_of_elements.
Qed.

Lemma find_domains_for_company_uncaught_witness :
  ∃ e',
    find_domains_for_company ascii_tables offline elements 2%positive
      sample_names = (Raise e', sample_names) ∧
    resolution_errors e' = false.
Proof.
  apply (find_domains_for_company_uncaught ascii_tables offline elements
           sample_names 2%positive
           {[ "navn" := VStr (string_repeat "a" 64) ]} "" long_label_domain
           UnicodeError).
  - reflexivity.
  - right. right. by eexists.
  - reflexivity.
  - apply (bool_decide_unpack _). vm_compute. exact I.
  - vm_compute. reflexivity.
  - reflexivity.
Defined.

(** A name that is neither a string nor falsy, a number other than 0 for
    one, makes the call raise [AttributeError] before any name is looked
    up. *)
Theorem find_domains_for_company_name_not_string U net iteration σ c
    (d : gmap string value) v :
  σ !! c = Some d → d !! "navn" = Some v → (∀ s, v ≠ VStr s) →
  py_not v σ = (Ok false, σ) →
  find_domains_for_company U net iteration c σ = (Raise AttributeError, σ).
Proof.
  intros Hc Hv Hstr Htruthy. unfold find_domains_for_company. cbv zeta.
  rewrite (bind_ok _ _ _ _ _ (dict_get_ok _ _ _ _ _ Hc)).
  rewrite (bind_ok _ _ _ _ _ (dict_get_ok _ _ _ _ _ Hc)).
  rewrite Hv. simpl.
  assert (on_name (_guess_domains_from_name U) v σ = (Raise AttributeError, σ))
    as Hguess.
  { unfold on_name. destruct v as [| n | s | l]; [| |by destruct (Hstr s)|];
      by rewrite (bind_ok _ _ _ _ _ Htruthy). }
  by rewrite (bind_raise _ _ _ _ _ Hguess).
Qed.

Lemma find_domains_for_company_name_not_string_witness :
  find_domains_for_company ascii_tables norwegian_only elements 1%positive
    sample_names = (Raise AttributeError, sample_names).
Proof.
  apply (find_domains_for_company_name_not_string ascii_tables norwegian_only
           elements sample_names 1%positive {[ "navn" := VInt 7 ]} (VInt 7));
    [reflexivity | reflexivity | discriminate | reflexivity].
Defined.

(** ** Industry codes that are no strings *)

(** When the item [naeringskode1] is present and is no dictionary, [None]
    for one, the category raises [AttributeError]; when the code in the
    dictionary is a number other than 0 it raises [TypeError]. *)
Theorem get_industry_category_malformed σ c (d : gmap string value) :
  σ !! c = Some d →
  (∀ v, d !! "naeringskode1" = Some v → (∀ l, v ≠ VRef l) →
        _get_industry_category c σ = (Raise AttributeError, σ)) ∧
  (∀ l (dl : gmap string value) n,
     d !! "naeringskode1" = Some (VRef l) → σ !! l = Some dl →
     dl !! "kode" = Some (VInt n) → n ≠ 0 →
     _get_industry_category c σ = (Raise TypeError, σ)).
Proof.
  intros Hc. split.
  - intros v Hv Href. unfold _get_industry_category.
    rewrite (bind_ok _ _ _ _ _ (dict_lookup_ok _ _ _ _ Hc)). rewrite Hv.
    destruct v as [| n | s | l]; [done|done|done|by destruct (Href l)].
  - intros l dl n Hv Hl Hk Hn. unfold _get_industry_category.
    rewrite (bind_ok _ _ _ _ _ (dict_lookup_ok _ _ _ _ Hc)). rewrite Hv.
    unfold value_get.
    rewrite (bind_ok _ _ _ _ _ (dict_get_ok _ _ _ _ _ Hl)). rewrite Hk.
    run_M. by destruct (Z.eqb_spec n 0).
Qed.

Lemma get_industry_category_malformed_witness :
  _get_industry_category 1%positive sample_codes =
    (Raise AttributeError, sample_codes) ∧
  _get_industry_category 2%positive sample_codes =
    (Raise TypeError, sample_codes).
Proof.
  split.
  - apply (proj1 (get_industry_category_malformed sample_codes 1%positive
                    {[ "naeringskode1" := VNone ]} eq_refl) VNone);
      [reflexivity | discriminate].
  - apply (proj2 (get_industry_category_malformed sample_codes 2%positive
                    {[ "naeringskode1" := VRef 3%positive ]} eq_refl)
             3%positive {[ "kode" := VInt 62 ]} 62);
      [reflexivity | reflexivity | reflexivity | lia].
Defined.

(** ** From the filter to the ranking *)

Lemma Forall2_exists_l {A B} (P : A → B → Prop) l k :
  Forall2 P l k → Forall (λ y, ∃ x, x ∈ l ∧ P x y) k.
Proof.
  induction 1 as [|x y l k HP _ IH]; constructor.
  - exists x. split; [left|done].
  - eapply Forall_impl; [exact IH|]. simpl.
    intros y' (x' & Hin & HP'). exists x'. split; [by right|done].
Qed.

Lemma agree_dom (σ τ : gmap loc (gmap string value)) :
  (∀ l, l ∈ dom σ → τ !! l = σ !! l) → ∀ l, l ∈ dom σ → l ∈ dom τ.
Proof.
  intros Hagree l Hl. apply elem_of_dom. rewrite (Hagree l Hl).
  by apply elem_of_dom.
Qed.

Lemma estimate_revenue_typed σ c (d : gmap string value) revenue :
  σ !! c = Some d → employees_missing_or_int d →
  _estimate_revenue c σ = (Ok revenue, σ) →
  revenue = VNone ∨ ∃ r, revenue = VInt r.
Proof.
  intros Hc [He | [e He]].
  - rewrite (estimate_revenue_absent σ c d Hc) by (by left).
    intros [= <-]. by left.
  - rewrite (estimate_revenue_int σ c d e Hc He). intros [= <-].
    right. by eexists.
Qed.

(** The loop enriches the records one after the other, each into a new
    object; the objects that were there stay as they are. *)
Lemma enrich_loop_typed σ companies :
  Forall (λ c, ∃ d : gmap string value,
            σ !! c = Some d ∧ employees_missing_or_int d ∧
            industry_code_typed σ d) companies →
  ∀ (τ : gmap loc (gmap string value)) enriched_companies,
    (∀ l, l ∈ dom σ → τ !! l = σ !! l) →
    ∃ news τ',
      enrich_loop companies enriched_companies τ =
        (Ok (enriched_companies ++ news)%list, τ') ∧
      (∀ l, l ∈ dom τ → τ' !! l = τ !! l) ∧
      Forall2 (λ c c', (c' ∉ dom τ) ∧ enriched_from σ τ' c c' ∧
                       ∃ d' : gmap string value,
                         τ' !! c' = Some d' ∧ revenue_typed d')
        companies news.
Proof.
  induction 1 as [|c companies (d & Hc & He & Hi) _ IH];
    intros τ acc Hagree; simpl.
  - exists [], τ. rewrite app_nil_r. split; [done|]. split; [done|constructor].
  - assert (c ∈ dom σ) as Hdom by (apply elem_of_dom; by rewrite Hc).
    assert (τ !! c = Some d) as Hτc by (by rewrite Hagree).
    destruct (industry_code_typed_extend σ τ d d eq_refl Hagree) as [Hno Hhas].
    assert (industry_code_typed τ d) as Hiτ.
    { destruct Hi as [Hn | [s Hs]]; [left; auto | right; exists s; auto]. }
    destruct (enrich_company_data_typed σ c d Hc He Hi)
      as (revenue & size & industry & H1 & H2 & H3 & _ & _).
    destruct (enrich_company_data_typed τ c d Hτc He Hiτ)
      as (revenue' & size' & industry' & H1' & H2' & H3' & Hrun & _).
    destruct (readers_same_items σ τ c c d d Hc Hτc eq_refl eq_refl Hagree
                He Hi) as (E1 & E2 & E3).
    rewrite H1, H1' in E1. rewrite H2, H2' in E2. rewrite H3, H3' in E3.
    simpl in E1, E2, E3.
    injection E1 as ->. injection E2 as ->. injection E3 as ->.
    set (c1 := fresh (dom τ)) in *.
    set (d1 := enriched_record d revenue size industry) in *.
    set (τ1 := <[c1 := d1]> τ) in *.
    assert (c1 ∉ dom τ) as Hfresh by apply is_fresh.
    assert (∀ l, l ∈ dom τ → τ1 !! l = τ !! l) as Hstep.
    { intros l Hl. unfold τ1. rewrite lookup_insert_ne; [done|].
      by intros <-. }
    assert (∀ l, l ∈ dom σ → τ1 !! l = σ !! l) as Hagree1.
    { intros l Hl. rewrite Hstep; [by apply Hagree|].
      by apply (agree_dom σ τ). }
    destruct (IH τ1 (acc ++ [c1])%list Hagree1)
      as (news & τ' & Hloop & Hkeep & Hnews).
    exists (c1 :: news), τ'.
    rewrite (bind_ok _ _ _ _ _ Hrun). rewrite Hloop.
    split; [by rewrite <- app_assoc|].
    assert (τ' !! c1 = Some d1) as Hc1.
    { rewrite Hkeep; [apply lookup_insert_eq|].
      unfold τ1. rewrite dom_insert. apply elem_of_union. left.
      by apply elem_of_singleton. }
    split; [|constructor].
    + intros l Hl. rewrite Hkeep; [by apply Hstep|].
      unfold τ1. rewrite dom_insert. apply elem_of_union. by right.
    + split; [done|]. split.
      * exists d, revenue, size, industry. auto 6.
      * exists d1. split; [done|]. unfold revenue_typed, d1, enriched_record.
        rewrite !lookup_insert_ne by done. rewrite lookup_insert_eq.
        destruct (estimate_revenue_typed σ c d revenue Hc He H1)
          as [-> | [r ->]]; [by right; left | right; right; by exists r].
    + eapply Forall2_impl; [exact Hnews|]. simpl.
      intros c0 c' (Hnew & Hfrom & Htyped). split; [|done].
      intros Hin. apply Hnew. unfold τ1. rewrite dom_insert.
      apply elem_of_union. by right.
Qed.

Lemma large_enough_int σ min_employees c :
  large_enough σ min_employees c = true →
  ∃ (d : gmap string value) e,
    σ !! c = Some d ∧ employees_of d = Some (VInt e) ∧ min_employees ≤ e.
Proof.
  unfold large_enough. destruct (σ !! c) as [d|]; [|done].
  destruct (employees_of d) as [[| e | |]|] eqn:He; try done.
  intros Hle%Z.leb_le. by exists d, e.
Qed.

Lemma StronglySorted_take {A} (R : A → A → Prop) n l :
  StronglySorted R l → StronglySorted R (take n l).
Proof.
  intros Hs. rewrite <- (take_drop n l) in Hs.
  by apply StronglySorted_app_1_l in Hs.
Qed.

(** Steps 2 to 4 of [main] on records whose count is missing, [None] or an
    integer and whose industry code is missing, [None] or a string: the
    steps return; every record that passes the filter, and no other, is
    enriched into a new object, so that a count of [None], on which
    enrichment would raise, never reaches it; the companies selected are
    the first [max_companies] of these objects put in falling order of
    their estimate; the objects that were there are as they were. *)
Theorem top_companies_ranked σ all_companies min_employees max_companies :
  Forall (well_formed σ) all_companies → 0 ≤ max_companies →
  ∃ enriched ranked σ',
    top_companies all_companies min_employees max_companies σ =
      (Ok (take (Z.to_nat max_companies) ranked), σ') ∧
    (∀ l, l ∈ dom σ → σ' !! l = σ !! l) ∧
    Forall2 (λ c c', (c' ∉ dom σ) ∧ enriched_from σ σ' c c')
      (List.filter (large_enough σ min_employees) all_companies) enriched ∧
    ranked ≡ₚ enriched ∧
    StronglySorted (λ a b, revenue_key σ' b ≤ revenue_key σ' a) ranked ∧
    StronglySorted (λ a b, revenue_key σ' b ≤ revenue_key σ' a)
      (take (Z.to_nat max_companies) ranked).
Proof.
  intros Hall Hmax. unfold top_companies.
  assert (Forall (λ c, ∃ d : gmap string value,
                    σ !! c = Some d ∧ employees_typed d) all_companies)
    as Htyped.
  { eapply Forall_impl; [exact Hall|]. simpl.
    intros c (d & Hc & He & _). by exists d. }
  rewrite (bind_ok _ _ _ _ _
             (filter_large_companies_typed σ all_companies min_employees
                Htyped)).
  set (large := List.filter (large_enough σ min_employees) all_companies).
  assert (Forall (λ c, ∃ d : gmap string value,
                    σ !! c = Some d ∧ employees_missing_or_int d ∧
                    industry_code_typed σ d) large) as Hlarge.
  { apply Forall_forall. intros c Hin.
    apply list_elem_of_In, filter_In in Hin as [Hin Hbig].
    apply list_elem_of_In in Hin.
    rewrite Forall_forall in Hall.
    destruct (Hall c Hin) as (d & Hc & _ & Hi).
    destruct (large_enough_int σ min_employees c Hbig)
      as (d' & e & Hc' & He & _).
    rewrite Hc in Hc'. injection Hc' as <-.
    exists d. split; [done|]. split; [right; by exists e|done]. }
  destruct (enrich_loop_typed σ large Hlarge σ [] ltac:(done))
    as (news & σ' & Hloop & Hkeep & Hnews).
  simpl in Hloop.
  rewrite (bind_ok _ _ _ _ _ Hloop).
  assert (Forall (λ c, ∃ d : gmap string value,
                    σ' !! c = Some d ∧ revenue_typed d) news) as Hrev.
  { eapply Forall_impl; [exact (Forall2_exists_l _ _ _ Hnews)|]. simpl.
    by intros c' (c & _ & _ & _ & Hd). }
  rewrite (bind_ok _ _ _ _ _ (sort_by_revenue_estimate_typed σ' news Hrev)).
  destruct (sorted_descending_spec (revenue_key σ') news)
    as (Hperm & Hsorted & _).
  exists news, (sorted_descending (revenue_key σ') news), σ'.
  split.
  { unfold list_slice_to. by destruct (Z.leb_spec 0 max_companies); [|lia]. }
  split; [done|]. split.
  { eapply Forall2_impl; [exact Hnews|]. simpl.
    by intros c c' (? & ? & _). }
  split; [done|]. split; [done|]. by apply StronglySorted_take.
Qed.

Lemma top_companies_ranked_witness :
  ∃ enriched ranked σ',
    top_companies [1; 5; 4; 3; 2; 1]%positive 10 2 sample_heap =
      (Ok (take (Z.to_nat 2) ranked), σ') ∧
    (∀ l, l ∈ dom sample_heap → σ' !! l = sample_heap !! l) ∧
    Forall2 (λ c c', (c' ∉ dom sample_heap) ∧
                     enriched_from sample_heap σ' c c')
      (List.filter (large_enough sample_heap 10) [1; 5; 4; 3; 2; 1]%positive)
      enriched ∧
    ranked ≡ₚ enriched ∧
    StronglySorted (λ a b, revenue_key σ' b ≤ revenue_key σ' a) ranked ∧
    StronglySorted (λ a b, revenue_key σ' b ≤ revenue_key σ' a)
      (take (Z.to_nat 2) ranked).
Proof.
  apply (top_companies_ranked sample_heap [1; 5; 4; 3; 2; 1]%positive 10 2);
    [|lia].
  repeat apply Forall_cons_2; try apply Forall_nil_2;
    eexists; (split; [reflexivity|]);
    (split; [first [ by right; eexists | by left; left | by left; right ]|]);
    first [ by left; left
          | right; exists "62.010", 7%positive, {[ "kode" := VStr "62.010" ]};
            done ].
Defined.
